(** * rotor: the actor base (lifecycle, plugin pipeline, unsubscription)

    A shallow embedding of [src/rotor/actor_base.cpp], of the message
    envelope of [include/rotor/message.hpp] and of the payloads of
    [include/rotor/messages.hpp] that the actor base sends.

    The member functions of [actor_base_t] become computations in a small
    state-and-failure monad over a [world]: the actor object, the plugin
    objects it points to and the queue of messages it has sent.  A failed
    [assert] (in a build without [NDEBUG]) and an operation the C++ standard
    leaves undefined (dereferencing a null smart pointer, erasing the end
    iterator) are the failure of the monad. *)

From stdpp Require Import base option list gmap.
From Stdlib Require Import NArith Lia.

Local Open Scope N_scope.

(** ** Data model *)

(** Modelled from the spec: [state.h] is not among the sources; the
    enumerators are the ones [actor_base.cpp] names ([state_t::NEW],
    [state_t::UNKNOWN], ..., [state_t::SHUTTED_DOWN], the spec's SHUT_DOWN). *)
Inductive state_t : Set :=
| UNKNOWN
| NEW
| INITIALIZING
| INITIALIZED
| OPERATIONAL
| SHUTTING_DOWN
| SHUTTED_DOWN.

#[global] Instance state_t_eq_dec : EqDecision state_t.
Proof. solve_decision. Defined.

(** [slot_t] of [install_plugin] / [uninstall_plugin]. *)
Inductive slot_t : Set := INIT | SHUTDOWN | SUBSCRIPTION | UNSUBSCRIPTION.

(** [processing_result_t], the answer of a plugin polled in [poll]. *)
Inductive processing_result_t : Set := IGNORED | CONSUMED | FINISHED.

(** Objects are identified by their location; [0] is the null pointer where
    a pointer may be null. *)
Abbreviation object_id := N (only parsing).

(** An address: an identity bound to its owning supervisor
    ([addr->supervisor]). *)
Record address_t : Set := mk_address {
  addr_id : object_id;
  addr_supervisor : object_id
}.

#[global] Instance address_t_eq_dec : EqDecision address_t.
Proof. solve_decision. Defined.

#[global] Instance address_t_countable : Countable address_t.
Proof.
  refine (inj_countable' (fun a => (addr_id a, addr_supervisor a))
                         (fun p => mk_address p.1 p.2) _).
  by intros [].
Defined.

Abbreviation address_ptr_t := address_t (only parsing).

(** A handler, as far as [unsubscribe] looks into it:
    [h->actor_ptr->address]. *)
Record handler_t : Set := mk_handler {
  handler_id : object_id;
  actor_ptr_address : address_ptr_t
}.

Abbreviation handler_ptr_t := handler_t (only parsing).

(** [subscription_point_t{h, addr}]. *)
Record subscription_point_t : Set := mk_point {
  point_handler : handler_ptr_t;
  point_address : address_ptr_t
}.

(** [const void*] identities of plugins and plugin pointers. *)
Abbreviation identity_t := N (only parsing).
Definition nullptr : N := 0.
Abbreviation plugin_ptr := N (only parsing).
Abbreviation plugins_t := (list N) (only parsing).

(** [payload::callback_ptr_t], a shared pointer that may be null. *)
Abbreviation callback_t := N (only parsing).
Abbreviation callback_ptr_t := (option N) (only parsing).

(** *** The message envelope, [message.hpp] *)

(** [template <typename T> struct message_t : message_base_t { T payload; }]:
    the only data member is the payload. *)
Record message_t (T : Type) : Type := mk_message { payload : T }.
Arguments mk_message {T} _.
Arguments payload {T} _.

(** The constructor [message_t(Args... args) : payload{args...}]: every
    constructor argument goes to the payload; [build] is the aggregate
    initialisation [T{args...}]. *)
Definition message_ctor {Args T : Type} (build : Args -> T) (args : Args)
  : message_t T :=
  mk_message (build args).

(** *** Payloads, [messages.hpp] *)

Module payload.

Record initialize_confirmation_t : Set := mk_initialize_confirmation { }.

Record initialize_actor_t : Set := mk_initialize_actor {
  ia_actor_address : address_ptr_t
}.

Record shutdown_trigger_t : Set := mk_shutdown_trigger {
  st_actor_address : address_ptr_t
}.

Record shutdown_confirmation_t : Set := mk_shutdown_confirmation { }.

Record shutdown_request_t : Set := mk_shutdown_request {
  sr_actor_address : address_ptr_t
}.

Record subscription_confirmation_t : Set := mk_subscription_confirmation {
  sc_point : subscription_point_t
}.

Record external_unsubscription_t : Set := mk_external_unsubscription {
  eu_point : subscription_point_t
}.

Record unsubscription_confirmation_t : Set := mk_unsubscription_confirmation {
  uc_point : subscription_point_t;
  uc_callback : callback_ptr_t
}.

Record link_response_t : Set := mk_link_response { }.

Record link_request_t : Set := mk_link_request {
  client_addr : address_ptr_t
}.

End payload.

(** Modelled from the spec: [request.hpp] is not among the sources.  A
    request message wraps the request payload with the address it is sent
    to ([msg.address]), the id of the request and the address the reply
    goes to; a response carries the request it answers and an optional
    error code ([msg.payload.req], [msg.payload.ec]). *)
Inductive error_code_t : Set := actor_not_linkable.

Record request_t (T : Type) : Type := mk_request {
  req_address : address_ptr_t;
  request_id : N;
  reply_to_addr : address_ptr_t;
  request_payload : T
}.
Arguments mk_request {T} _ _ _ _.
Arguments req_address {T} _.
Arguments request_id {T} _.
Arguments reply_to_addr {T} _.
Arguments request_payload {T} _.

Record response_t (T R : Type) : Type := mk_response {
  ec : option error_code_t;
  req : request_t T;
  res : option R
}.
Arguments mk_response {T R} _ _ _.
Arguments ec {T R} _.
Arguments req {T R} _.
Arguments res {T R} _.

Module message.

Definition unsubscription_t := message_t payload.unsubscription_confirmation_t.
Definition unsubscription_external_t := message_t payload.external_unsubscription_t.
Definition subscription_t := message_t payload.subscription_confirmation_t.
Definition shutdown_trigger_t := message_t payload.shutdown_trigger_t.

Definition init_request_t := request_t payload.initialize_actor_t.
Definition init_response_t :=
  message_t (response_t payload.initialize_actor_t payload.initialize_confirmation_t).

Definition shutdown_request_t := request_t payload.shutdown_request_t.
Definition shutdown_response_t :=
  message_t (response_t payload.shutdown_request_t payload.shutdown_confirmation_t).

Definition link_request_t := request_t payload.link_request_t.
Definition link_response_t :=
  message_t (response_t payload.link_request_t payload.link_response_t).

End message.

(** [message_ptr_t], a pointer to the type-erased [message_base_t]: one
    alternative per message type the actor base sends. *)
Inductive message_ptr_t : Type :=
| msg_shutdown_trigger (m : message.shutdown_trigger_t)
| msg_unsubscription (m : message.unsubscription_t)
| msg_unsubscription_external (m : message.unsubscription_external_t)
| msg_init_response (m : message.init_response_t)
| msg_shutdown_response (m : message.shutdown_response_t)
| msg_link_response (m : message.link_response_t).

(** What [send] hands to the supervisor: the destination and the message. *)
Definition queue_item : Type := address_ptr_t * message_ptr_t.

(** [supervisor_t], as far as the actor base uses it. *)
Record supervisor_t : Set := mk_supervisor {
  sup_this : object_id;
  get_address : address_ptr_t
}.

(** [details::linkage_t{server_addr, client_addr}]. *)
Definition linkage_t : Set := (address_ptr_t * address_ptr_t)%type.

(** The data members of [actor_base_t]. *)
Record actor_base_t : Type := mk_actor {
  this : object_id;
  supervisor : supervisor_t;
  unlink_timeout : option N;
  state : state_t;
  address : address_ptr_t;
  plugins : plugins_t;
  activating_plugins : gset identity_t;
  deactivating_plugins : gset identity_t;
  init_plugins : plugins_t;
  shutdown_plugins : plugins_t;
  subscription_plugins : plugins_t;
  unsubscription_plugins : plugins_t;
  init_request : option message.init_request_t;
  shutdown_request : option message.shutdown_request_t;
  linked_clients : gset linkage_t
}.

(** The world a member function runs in: the actor, the plugin objects
    (of an abstract type [W]) and the messages sent so far, oldest first. *)
Record world (W : Type) : Type := mk_world {
  actor : actor_base_t;
  env : W;
  queue : list queue_item
}.
Arguments mk_world {W} _ _ _.
Arguments actor {W} _.
Arguments env {W} _.
Arguments queue {W} _.

(** Assignment to one data member, the others unchanged. *)
Definition set_state (v : state_t) (a : actor_base_t) : actor_base_t :=
  mk_actor (this a) (supervisor a) (unlink_timeout a) v (address a)
    (plugins a) (activating_plugins a) (deactivating_plugins a)
    (init_plugins a) (shutdown_plugins a) (subscription_plugins a)
    (unsubscription_plugins a) (init_request a) (shutdown_request a)
    (linked_clients a).
Definition set_activating_plugins (v : gset identity_t) (a : actor_base_t) : actor_base_t :=
  mk_actor (this a) (supervisor a) (unlink_timeout a) (state a) (address a)
    (plugins a) v (deactivating_plugins a) (init_plugins a)
    (shutdown_plugins a) (subscription_plugins a) (unsubscription_plugins a)
    (init_request a) (shutdown_request a) (linked_clients a).
Definition set_deactivating_plugins (v : gset identity_t) (a : actor_base_t) : actor_base_t :=
  mk_actor (this a) (supervisor a) (unlink_timeout a) (state a) (address a)
    (plugins a) (activating_plugins a) v (init_plugins a)
    (shutdown_plugins a) (subscription_plugins a) (unsubscription_plugins a)
    (init_request a) (shutdown_request a) (linked_clients a).
Definition set_init_plugins (v : plugins_t) (a : actor_base_t) : actor_base_t :=
  mk_actor (this a) (supervisor a) (unlink_timeout a) (state a) (address a)
    (plugins a) (activating_plugins a) (deactivating_plugins a) v
    (shutdown_plugins a) (subscription_plugins a) (unsubscription_plugins a)
    (init_request a) (shutdown_request a) (linked_clients a).
Definition set_shutdown_plugins (v : plugins_t) (a : actor_base_t) : actor_base_t :=
  mk_actor (this a) (supervisor a) (unlink_timeout a) (state a) (address a)
    (plugins a) (activating_plugins a) (deactivating_plugins a)
    (init_plugins a) v (subscription_plugins a) (unsubscription_plugins a)
    (init_request a) (shutdown_request a) (linked_clients a).
Definition set_subscription_plugins (v : plugins_t) (a : actor_base_t) : actor_base_t :=
  mk_actor (this a) (supervisor a) (unlink_timeout a) (state a) (address a)
    (plugins a) (activating_plugins a) (deactivating_plugins a)
    (init_plugins a) (shutdown_plugins a) v (unsubscription_plugins a)
    (init_request a) (shutdown_request a) (linked_clients a).
Definition set_unsubscription_plugins (v : plugins_t) (a : actor_base_t) : actor_base_t :=
  mk_actor (this a) (supervisor a) (unlink_timeout a) (state a) (address a)
    (plugins a) (activating_plugins a) (deactivating_plugins a)
    (init_plugins a) (shutdown_plugins a) (subscription_plugins a) v
    (init_request a) (shutdown_request a) (linked_clients a).
Definition set_init_request (v : option message.init_request_t) (a : actor_base_t) : actor_base_t :=
  mk_actor (this a) (supervisor a) (unlink_timeout a) (state a) (address a)
    (plugins a) (activating_plugins a) (deactivating_plugins a)
    (init_plugins a) (shutdown_plugins a) (subscription_plugins a)
    (unsubscription_plugins a) v (shutdown_request a) (linked_clients a).
Definition set_shutdown_request (v : option message.shutdown_request_t) (a : actor_base_t) : actor_base_t :=
  mk_actor (this a) (supervisor a) (unlink_timeout a) (state a) (address a)
    (plugins a) (activating_plugins a) (deactivating_plugins a)
    (init_plugins a) (shutdown_plugins a) (subscription_plugins a)
    (unsubscription_plugins a) (init_request a) v (linked_clients a).
Definition set_linked_clients (v : gset linkage_t) (a : actor_base_t) : actor_base_t :=
  mk_actor (this a) (supervisor a) (unlink_timeout a) (state a) (address a)
    (plugins a) (activating_plugins a) (deactivating_plugins a)
    (init_plugins a) (shutdown_plugins a) (subscription_plugins a)
    (unsubscription_plugins a) (init_request a) (shutdown_request a) v.

(** ** The plugin interface *)

(** Modelled from the spec: [plugin.h] is not among the sources.  The
    interface is what [actor_base.cpp] uses of a [plugin_t]: its identity,
    its [actor] back pointer (null once the plugin is inactive) and the
    virtual member functions the actor calls.  A member function of a plugin
    may call back into the actor, so it is a transformer of the whole
    world. *)
Class plugin_iface (W : Type) : Type := {
  identity : plugin_ptr -> identity_t;
  plugin_actor : plugin_ptr -> W -> bool;
  activate : plugin_ptr -> world W -> world W;
  deactivate : plugin_ptr -> world W -> world W;
  handle_init :
    plugin_ptr -> option message.init_request_t -> world W -> bool * world W;
  handle_shutdown :
    plugin_ptr -> option message.shutdown_request_t -> world W -> bool * world W;
  handle_subscription :
    plugin_ptr -> message.subscription_t -> world W
    -> processing_result_t * world W;
  handle_unsubscription :
    plugin_ptr -> message.unsubscription_t -> world W
    -> processing_result_t * world W;
  handle_unsubscription_external :
    plugin_ptr -> message.unsubscription_external_t -> world W
    -> processing_result_t * world W
}.

(** ** The monad of member functions *)

(** How a call ends: it returns, it aborts (a failed [assert], undefined
    behaviour), or the model ran out of the fuel given to a [while] loop. *)
Inductive outcome (W A : Type) : Type :=
| Done (a : A) (w : world W)
| Aborted
| OutOfFuel.
Arguments Done {W A} _ _.
Arguments Aborted {W A}.
Arguments OutOfFuel {W A}.

Definition M (W A : Type) : Type := world W -> outcome W A.

Definition ret {W A} (a : A) : M W A := fun w => Done a w.

Definition bind {W A B} (m : M W A) (k : A -> M W B) : M W B :=
  fun w =>
    match m w with
    | Done a w' => k a w'
    | Aborted => Aborted
    | OutOfFuel => OutOfFuel
    end.

Notation "'let*' x ':=' m 'in' k" := (bind m (fun x => k))
  (at level 10, x name, m at level 100, k at level 200).
Notation "m ';;' k" := (bind m (fun _ => k))
  (at level 100, k at level 200, right associativity).

Definition abort {W A} : M W A := fun _ => Aborted.
Definition out_of_fuel {W A} : M W A := fun _ => OutOfFuel.

(** Read a data member of the actor. *)
Definition gets {W A} (f : actor_base_t -> A) : M W A :=
  fun w => Done (f (actor w)) w.

(** Update the actor. *)
Definition modify {W} (f : actor_base_t -> actor_base_t) : M W unit :=
  fun w => Done tt (mk_world (f (actor w)) (env w) (queue w)).

(** Read the plugin objects. *)
Definition gets_env {W A} (f : W -> A) : M W A :=
  fun w => Done (f (env w)) w.

(** Call a member function of a plugin. *)
Definition call {W R} (cb : world W -> R * world W) : M W R :=
  fun w => let '(r, w') := cb w in Done r w'.

Definition call_ {W} (cb : world W -> world W) : M W unit :=
  fun w => Done tt (cb w).

(** The final world of a call that returned. *)
Definition returned {W A} (o : outcome W A) : option (world W) :=
  match o with
  | Done _ w => Some w
  | _ => None
  end.

(** ** The member functions of [actor_base_t] *)

Section actor_base.

Context {W : Type} `{!plugin_iface W}.

(** [true] in a build with [-DNDEBUG], where [assert] expands to nothing. *)
Variable NDEBUG : bool.

Definition assert_ (c : bool) : M W unit :=
  fun w => if NDEBUG || c then Done tt w else Aborted.

(** Modelled from the spec: [send<T>(dest, args...)] is declared in
    [actor_base.h], not among the sources; it builds the message
    [message_t<T>{args...}] and enqueues it for [dest] on the supervisor. *)
Definition send (dest : address_ptr_t) (m : message_ptr_t) : M W unit :=
  fun w => Done tt (mk_world (actor w) (env w) (queue w ++ [(dest, m)])).

(** Modelled from the spec: [reply_to(request)] is declared in
    [actor_base.h]; it sends the response without error to the address the
    request names for replies. *)
Definition init_reply (r : message.init_request_t) : message_ptr_t :=
  msg_init_response
    (message_ctor (fun r => mk_response None r (Some payload.mk_initialize_confirmation)) r).

Definition shutdown_reply (r : message.shutdown_request_t) : message_ptr_t :=
  msg_shutdown_response
    (message_ctor (fun r => mk_response None r (Some payload.mk_shutdown_confirmation)) r).

Definition link_reply (r : message.link_request_t) : message_ptr_t :=
  msg_link_response
    (message_ctor (fun r => mk_response None r (Some payload.mk_link_response)) r).

Definition link_error (r : message.link_request_t) (e : error_code_t)
  : message_ptr_t :=
  msg_link_response (message_ctor (fun r => mk_response (Some e) r None) r).

(** *** Plugin slots *)

Definition slot_get (slot : slot_t) (a : actor_base_t) : plugins_t :=
  match slot with
  | INIT => init_plugins a
  | SHUTDOWN => shutdown_plugins a
  | SUBSCRIPTION => subscription_plugins a
  | UNSUBSCRIPTION => unsubscription_plugins a
  end.

Definition slot_set (slot : slot_t) (v : plugins_t) (a : actor_base_t)
  : actor_base_t :=
  match slot with
  | INIT => set_init_plugins v a
  | SHUTDOWN => set_shutdown_plugins v a
  | SUBSCRIPTION => set_subscription_plugins v a
  | UNSUBSCRIPTION => set_unsubscription_plugins v a
  end.

(** [dest->emplace_back(&plugin)]. *)
Definition install_plugin (plugin : plugin_ptr) (slot : slot_t) : M W unit :=
  modify (fun a => slot_set slot (slot_get slot a ++ [plugin]) a).

(** [std::find] from the front. *)
Fixpoint find_index (plugin : plugin_ptr) (l : plugins_t) : option nat :=
  match l with
  | [] => None
  | p :: l' =>
      if N.eqb p plugin then Some O else S <$> find_index plugin l'
  end.

(** [dest->erase(std::find(...))]; erasing the end iterator is undefined. *)
Definition uninstall_plugin (plugin : plugin_ptr) (slot : slot_t) : M W unit :=
  let* l := gets (slot_get slot) in
  match find_index plugin l with
  | Some i => modify (slot_set slot (delete i l))
  | None => abort
  end.

(** *** Activation and deactivation of plugins *)

(** [for (auto plugin : plugins) plugin->activate(this)], by position. *)
Fixpoint activate_plugins_from (n : nat) (i : nat) : M W unit :=
  match n with
  | O => ret tt
  | S n' =>
      let* ps := gets plugins in
      match ps !! i with
      | Some plugin => call_ (activate plugin) ;; activate_plugins_from n' (S i)
      | None => abort
      end
  end.

Definition activate_plugins : M W unit :=
  let* ps := gets plugins in
  activate_plugins_from (length ps) O.

Definition do_initialize : M W unit := activate_plugins.

(** The loop of [deactivate_plugins]: [base] is the position of
    [it.base()]; the reverse iterator [it] designates the element before
    it, [*--(it.base())], and [it == rend()] when [base] is [0]. *)
Fixpoint deactivate_plugins_from (base : nat) : M W unit :=
  match base with
  | O => ret tt
  | S i =>
      let* ps := gets plugins in
      match ps !! i with
      | Some plugin =>
          let* active := gets_env (plugin_actor plugin) in
          (if active : bool then
             modify (fun a =>
               set_deactivating_plugins
                 ({[identity plugin]} ∪ deactivating_plugins a) a) ;;
             call_ (deactivate plugin)
           else ret tt) ;;
          deactivate_plugins_from i
      | None => abort
      end
  end.

Definition deactivate_plugins : M W unit :=
  let* ps := gets plugins in
  deactivate_plugins_from (length ps).

Definition commit_plugin_activation (plugin : plugin_ptr) (success : bool)
  : M W unit :=
  if success then
    modify (fun a =>
      set_activating_plugins (activating_plugins a ∖ {[identity plugin]}) a)
  else deactivate_plugins.

Definition commit_plugin_deactivation (plugin : plugin_ptr) : M W unit :=
  modify (fun a =>
    set_deactivating_plugins (deactivating_plugins a ∖ {[identity plugin]}) a).

(** [*deactivating_plugins.begin()]: the least element of the set. *)
Definition set_begin (s : gset identity_t) : identity_t :=
  match elements s with
  | [] => nullptr
  | x :: xs => foldr N.min x xs
  end.

(** The destructor, up to [delete plugin], which only releases memory. *)
Definition destructor : M W unit :=
  let* d := gets deactivating_plugins in
  if bool_decide (d ≠ ∅) then
    let p := set_begin d in
    assert_ (N.eqb p nullptr)
  else ret tt.

(** *** Lifecycle *)

Definition do_shutdown : M W unit :=
  let* s := gets state in
  assert_ (bool_decide (s ≠ NEW) && bool_decide (s ≠ UNKNOWN)) ;;
  let* sup := gets supervisor in
  let* self := gets address in
  send (get_address sup)
       (msg_shutdown_trigger (message_ctor payload.mk_shutdown_trigger self)).

Definition init_start : M W unit := modify (set_state INITIALIZING).

Definition init_finish : M W unit :=
  let* r := gets init_request in
  match r with
  | Some rq =>
      send (reply_to_addr rq) (init_reply rq) ;;
      modify (set_init_request None) ;;
      modify (set_state INITIALIZED)
  | None => abort
  end.

Definition on_start : M W unit := modify (set_state OPERATIONAL).

Definition shutdown_start : M W unit := modify (set_state SHUTTING_DOWN).

Definition shutdown_finish : M W unit :=
  let* r := gets shutdown_request in
  (match r with
   | Some rq =>
       send (reply_to_addr rq) (shutdown_reply rq) ;;
       modify (set_shutdown_request None)
   | None => ret tt
   end) ;;
  modify (set_state SHUTTED_DOWN).

(** [init_plugins.pop_front()]; undefined on an empty container. *)
Definition pop_front_init : M W unit :=
  let* ps := gets init_plugins in
  match ps with
  | [] => abort
  | _ :: rest => modify (set_init_plugins rest)
  end.

(** The [while] loop of [init_continue]. *)
Fixpoint init_continue_loop (fuel : nat) : M W unit :=
  match fuel with
  | O => out_of_fuel
  | S fuel' =>
      let* ps := gets init_plugins in
      match ps with
      | [] => ret tt
      | plugin :: _ =>
          let* r := gets init_request in
          let* ok := call (handle_init plugin r) in
          if ok : bool then pop_front_init ;; init_continue_loop fuel'
          else ret tt
      end
  end.

Definition init_continue (fuel : nat) : M W unit :=
  let* s := gets state in
  assert_ (bool_decide (s = INITIALIZING)) ;;
  init_continue_loop fuel ;;
  let* ps := gets init_plugins in
  match ps with
  | [] => init_finish
  | _ => ret tt
  end.

(** [shutdown_plugins.pop_back()]; undefined on an empty container. *)
Definition pop_back_shutdown : M W unit :=
  let* ps := gets shutdown_plugins in
  match ps with
  | [] => abort
  | _ => modify (set_shutdown_plugins (removelast ps))
  end.

(** The [while] loop of [shutdown_continue]. *)
Fixpoint shutdown_continue_loop (fuel : nat) : M W unit :=
  match fuel with
  | O => out_of_fuel
  | S fuel' =>
      let* ps := gets shutdown_plugins in
      match last ps with
      | None => ret tt
      | Some plugin =>
          let* r := gets shutdown_request in
          let* ok := call (handle_shutdown plugin r) in
          if ok : bool then pop_back_shutdown ;; shutdown_continue_loop fuel'
          else ret tt
      end
  end.

Definition shutdown_continue (fuel : nat) : M W unit :=
  let* s := gets state in
  assert_ (bool_decide (s = SHUTTING_DOWN)) ;;
  shutdown_continue_loop fuel ;;
  let* ps := gets shutdown_plugins in
  match ps with
  | [] => shutdown_finish
  | _ => ret tt
  end.

(** *** Unsubscription *)

Definition unsubscribe (h : handler_ptr_t) (addr : address_ptr_t)
    (callback : callback_ptr_t) : M W unit :=
  let dest := actor_ptr_address h in
  let point := mk_point h addr in
  let* self := gets this in
  if N.eqb (addr_supervisor addr) self then
    send dest
      (msg_unsubscription
         (message_ctor
            (fun '(p, c) => payload.mk_unsubscription_confirmation p c)
            (point, callback)))
  else
    assert_ (bool_decide (callback = None)) ;;
    send dest
      (msg_unsubscription_external
         (message_ctor payload.mk_external_unsubscription point)).

(** *** Polling a slot *)

(** The loop of [poll]: [base] is the position of [rit.base()], the plugin
    polled is the one before it, at [it = --rit.base()].  [++rit] and
    [rit = std::reverse_iterator(plugins.erase(it))] both leave the base at
    [it]. *)
Fixpoint poll_from {Msg : Type} (slot : slot_t) (message : Msg)
    (fn : plugin_ptr -> Msg -> world W -> processing_result_t * world W)
    (base : nat) : M W unit :=
  match base with
  | O => ret tt
  | S it =>
      let* ps := gets (slot_get slot) in
      match ps !! it with
      | Some plugin =>
          let* result := call (fn plugin message) in
          match result with
          | IGNORED => poll_from slot message fn it
          | CONSUMED => ret tt
          | FINISHED =>
              modify (fun a => slot_set slot (delete it (slot_get slot a)) a) ;;
              poll_from slot message fn it
          end
      | None => abort
      end
  end.

Definition poll {Msg : Type} (slot : slot_t) (message : Msg)
    (fn : plugin_ptr -> Msg -> world W -> processing_result_t * world W)
  : M W unit :=
  let* ps := gets (slot_get slot) in
  poll_from slot message fn (length ps).

Definition on_subscription (message : message.subscription_t) : M W unit :=
  poll SUBSCRIPTION message handle_subscription.

Definition on_unsubscription (message : message.unsubscription_t) : M W unit :=
  poll UNSUBSCRIPTION message handle_unsubscription.

Definition on_unsubscription_external
    (message : message.unsubscription_external_t) : M W unit :=
  poll UNSUBSCRIPTION message handle_unsubscription_external.

(** *** Linking *)

(** Modelled from the spec: [on_link_request] is compiled out of
    [actor_base.cpp] (its body stands in a comment block at the end of the
    file) and the plugin that serves link requests is not among the
    sources.  The definition follows section 4.9 of the spec and the
    disabled body: the link is accepted when [unlink_timeout] has a
    value. *)
Definition on_link_request (msg : message.link_request_t) : M W unit :=
  let* t := gets unlink_timeout in
  if t is Some _ then
    let server_addr := req_address msg in
    let client_addr := payload.client_addr (request_payload msg) in
    modify (fun a =>
      set_linked_clients ({[(server_addr, client_addr)]} ∪ linked_clients a) a) ;;
    send (reply_to_addr msg) (link_reply msg)
  else
    send (reply_to_addr msg) (link_error msg actor_not_linkable).

End actor_base.

(** ** Runs of the lifecycle entry points *)

(** The entry points that assign the lifecycle state. *)
Inductive entry_point : Set :=
| Init_start
| Init_finish
| On_start
| Shutdown_start
| Shutdown_finish.

#[global] Instance entry_point_eq_dec : EqDecision entry_point.
Proof. solve_decision. Defined.

Definition run_entry {W} (e : entry_point) : M W unit :=
  match e with
  | Init_start => init_start
  | Init_finish => init_finish
  | On_start => on_start
  | Shutdown_start => shutdown_start
  | Shutdown_finish => shutdown_finish
  end.

Fixpoint run_entries {W} (es : list entry_point) : M W unit :=
  match es with
  | [] => ret tt
  | e :: es' => run_entry e ;; run_entries es'
  end.

(** The states an actor goes through in a run, as far as the run gets. *)
Fixpoint states_visited {W} (es : list entry_point) (w : world W)
  : list state_t :=
  match es with
  | [] => []
  | e :: es' =>
      match run_entry e w with
      | Done _ w' => state (actor w') :: states_visited es' w'
      | _ => []
      end
  end.

(** The state an entry point assigns. *)
Definition target (e : entry_point) : state_t :=
  match e with
  | Init_start => INITIALIZING
  | Init_finish => INITIALIZED
  | On_start => OPERATIONAL
  | Shutdown_start => SHUTTING_DOWN
  | Shutdown_finish => SHUTTED_DOWN
  end.

(** The lifecycle of the spec, section 3, in the spec's words:
    NEW -> INITIALIZING -> INITIALIZED -> OPERATIONAL -> SHUTTING_DOWN ->
    SHUT_DOWN, and INITIALIZING -> SHUTTING_DOWN on error. *)
Definition spec_successors (s : state_t) : list state_t :=
  match s with
  | UNKNOWN => []
  | NEW => [INITIALIZING]
  | INITIALIZING => [INITIALIZED; SHUTTING_DOWN]
  | INITIALIZED => [OPERATIONAL]
  | OPERATIONAL => [SHUTTING_DOWN]
  | SHUTTING_DOWN => [SHUTTED_DOWN]
  | SHUTTED_DOWN => []
  end.

Definition is_successor (s s' : state_t) : bool :=
  bool_decide (s' ∈ spec_successors s).

(** The states of the spec's lifecycle from which an entry point's target is
    a successor. *)
Definition spec_predecessors (e : entry_point) : list state_t :=
  match e with
  | Init_start => [NEW]
  | Init_finish => [INITIALIZING]
  | On_start => [INITIALIZED]
  | Shutdown_start => [INITIALIZING; OPERATIONAL]
  | Shutdown_finish => [SHUTTING_DOWN]
  end.

(** ** What the actor sends *)

(** The message [do_shutdown] sends and where to. *)
Definition shutdown_trigger_item (a : actor_base_t) : queue_item :=
  (get_address (supervisor a),
   msg_shutdown_trigger (mk_message (payload.mk_shutdown_trigger (address a)))).

Definition unsubscription_item (h : handler_ptr_t) (addr : address_ptr_t)
    (callback : callback_ptr_t) : queue_item :=
  (actor_ptr_address h,
   msg_unsubscription
     (mk_message (payload.mk_unsubscription_confirmation (mk_point h addr) callback))).

Definition external_unsubscription_item (h : handler_ptr_t)
    (addr : address_ptr_t) : queue_item :=
  (actor_ptr_address h,
   msg_unsubscription_external
     (mk_message (payload.mk_external_unsubscription (mk_point h addr)))).

Definition is_unsubscription_confirmation (i : queue_item) : bool :=
  match i.2 with
  | msg_unsubscription _ => true
  | _ => false
  end.

(** ** The walks over plugins, as the spec describes them *)

(** A member function of a plugin leaves a slot of the actor alone. *)
Definition keeps_slot {W R} (slot : slot_t) (cb : world W -> R * world W)
  : Prop :=
  forall w, slot_get slot (actor (cb w).2) = slot_get slot (actor w).

Definition pop_init {W} (w : world W) : world W :=
  mk_world (set_init_plugins (tail (init_plugins (actor w))) (actor w))
           (env w) (queue w).

(** The spec's walk of section 4.5, first half: the plugins of [done] were
    asked in turn, each returned [true] and was popped before the next one
    was asked. *)
Inductive init_accepted {W} `{!plugin_iface W}
  : list plugin_ptr -> world W -> world W -> Prop :=
| init_accepted_nil w : init_accepted [] w w
| init_accepted_cons p ps w w1 w2 :
    handle_init p (init_request (actor w)) w = (true, w1) ->
    init_accepted ps (pop_init w1) w2 ->
    init_accepted (p :: ps) w w2.

Definition pop_shutdown {W} (w : world W) : world W :=
  mk_world (set_shutdown_plugins (removelast (shutdown_plugins (actor w))) (actor w))
           (env w) (queue w).

(** The spec's shutdown walk, the mirror of the init walk: the plugins of
    [done], listed in the order they were asked, returned [true] and were
    popped one after the other. *)
Inductive shutdown_accepted {W} `{!plugin_iface W}
  : list plugin_ptr -> world W -> world W -> Prop :=
| shutdown_accepted_nil w : shutdown_accepted [] w w
| shutdown_accepted_cons p ps w w1 w2 :
    handle_shutdown p (shutdown_request (actor w)) w = (true, w1) ->
    shutdown_accepted ps (pop_shutdown w1) w2 ->
    shutdown_accepted (p :: ps) w w2.

(** What [shutdown_finish] leaves: the reply, if a request is stored, and
    the state SHUT_DOWN in either case. *)
Definition shutdown_finished {W} (w : world W) : world W :=
  match shutdown_request (actor w) with
  | Some r =>
      mk_world (set_state SHUTTED_DOWN (set_shutdown_request None (actor w)))
               (env w)
               (queue w ++ [(reply_to_addr r, shutdown_reply r)])
  | None => mk_world (set_state SHUTTED_DOWN (actor w)) (env w) (queue w)
  end.

Definition insert_deactivating {W} (i : identity_t) (w : world W) : world W :=
  mk_world
    (set_deactivating_plugins ({[i]} ∪ deactivating_plugins (actor w)) (actor w))
    (env w) (queue w).

Definition erase_deactivating {W} (i : identity_t) (w : world W) : world W :=
  mk_world
    (set_deactivating_plugins (deactivating_plugins (actor w) ∖ {[i]}) (actor w))
    (env w) (queue w).

(** The spec's account of [deactivate_plugins], section 4.5: the plugins are
    taken in reverse order, the last one first; a plugin that is still active
    has its identity entered in [deactivating_plugins] and is then asked to
    deactivate, in a world that holds the entry; an inactive one is
    skipped. *)
Inductive deactivated {W} `{!plugin_iface W}
  : list plugin_ptr -> world W -> world W -> Prop :=
| deactivated_nil w : deactivated [] w w
| deactivated_active ps p w w' :
    plugin_actor p (env w) = true ->
    deactivated ps (deactivate p (insert_deactivating (identity p) w)) w' ->
    deactivated (ps ++ [p]) w w'
| deactivated_inactive ps p w w' :
    plugin_actor p (env w) = false ->
    deactivated ps w w' ->
    deactivated (ps ++ [p]) w w'.

(** The plugins of [cs] commit their deactivation, one after the other. *)
Fixpoint commit_plugin_deactivations {W} `{!plugin_iface W}
    (cs : list plugin_ptr) : M W unit :=
  match cs with
  | [] => ret tt
  | p :: cs' => commit_plugin_deactivation p ;; commit_plugin_deactivations cs'
  end.

Definition with_slot {W} (slot : slot_t) (v : plugins_t) (w : world W)
  : world W :=
  mk_world (slot_set slot v (actor w)) (env w) (queue w).

(** The spec's account of polling a slot, section 4.5.  The plugins of
    [earlier] are still to be polled, last one first; those of [kept] were
    polled and stay in the slot behind them; [out] is the slot at the end.
    IGNORED: the plugin stays and the one before it is polled.  CONSUMED:
    polling stops and the plugin stays.  FINISHED: that plugin leaves the
    slot and the one before it is polled. *)
Inductive polled {W Msg : Type} (slot : slot_t) (message : Msg)
    (fn : plugin_ptr -> Msg -> world W -> processing_result_t * world W)
  : list plugin_ptr -> list plugin_ptr -> world W
    -> list plugin_ptr -> world W -> Prop :=
| polled_end kept w : polled slot message fn [] kept w kept w
| polled_ignored earlier p kept w w1 out w2 :
    fn p message w = (IGNORED, w1) ->
    polled slot message fn earlier (p :: kept) w1 out w2 ->
    polled slot message fn (earlier ++ [p]) kept w out w2
| polled_consumed earlier p kept w w1 :
    fn p message w = (CONSUMED, w1) ->
    polled slot message fn (earlier ++ [p]) kept w (earlier ++ p :: kept) w1
| polled_finished earlier p kept w w1 out w2 :
    fn p message w = (FINISHED, w1) ->
    polled slot message fn earlier kept (with_slot slot (earlier ++ kept) w1) out w2 ->
    polled slot message fn (earlier ++ [p]) kept w out w2.

(** ** A sample set of plugins

    Concrete plugins to run the model on.  The plugin objects are the set of
    plugins whose [actor] pointer is set and a log of the member functions
    called, oldest first. *)

Inductive call_t : Set :=
| c_activate (p : plugin_ptr)
| c_deactivate (p : plugin_ptr)
| c_handle_init (p : plugin_ptr)
| c_handle_shutdown (p : plugin_ptr)
| c_handle_subscription (p : plugin_ptr)
| c_handle_unsubscription (p : plugin_ptr)
| c_handle_unsubscription_external (p : plugin_ptr).

Record sample_env : Type := mk_sample_env {
  active : gset plugin_ptr;
  log : list call_t
}.

Definition logged (c : call_t) (e : sample_env) : sample_env :=
  mk_sample_env (active e) (log e ++ [c]).

Definition sample_identity (p : plugin_ptr) : identity_t := 100 + p.

(** A plugin with an even number commits its deactivation at once, from
    within [deactivate], and drops its [actor] pointer; one with an odd
    number commits later. *)
Definition sample_deactivate (p : plugin_ptr) (w : world sample_env)
  : world sample_env :=
  if N.even p then
    mk_world
      (set_deactivating_plugins
         (deactivating_plugins (actor w) ∖ {[sample_identity p]}) (actor w))
      (mk_sample_env (active (env w) ∖ {[p]}) (log (env w) ++ [c_deactivate p]))
      (queue w)
  else mk_world (actor w) (logged (c_deactivate p) (env w)) (queue w).

Definition sample_activate (p : plugin_ptr) (w : world sample_env)
  : world sample_env :=
  mk_world (actor w)
    (mk_sample_env ({[p]} ∪ active (env w)) (log (env w) ++ [c_activate p]))
    (queue w).

(** Plugins below 10 let initialisation and shutdown proceed. *)
Definition sample_handle {R : Type} (c : call_t) (r : R) (w : world sample_env)
  : R * world sample_env :=
  (r, mk_world (actor w) (logged c (env w)) (queue w)).

(** The answer to a poll goes by the plugin's number modulo 3. *)
Definition sample_answer (p : plugin_ptr) : processing_result_t :=
  match p mod 3 with
  | 0 => IGNORED
  | 1 => CONSUMED
  | _ => FINISHED
  end.

#[global] Instance sample_plugins : plugin_iface sample_env := {|
  identity := sample_identity;
  plugin_actor p e := bool_decide (p ∈ active e);
  activate := sample_activate;
  deactivate := sample_deactivate;
  handle_init p _ := sample_handle (c_handle_init p) (p <? 10);
  handle_shutdown p _ := sample_handle (c_handle_shutdown p) (p <? 10);
  handle_subscription p _ :=
    sample_handle (c_handle_subscription p) (sample_answer p);
  handle_unsubscription p _ :=
    sample_handle (c_handle_unsubscription p) (sample_answer p);
  handle_unsubscription_external p _ :=
    sample_handle (c_handle_unsubscription_external p) (sample_answer p)
|}.

(** A supervisor with object identity 1 at address 1, and an actor of it at
    address 2. *)
Definition sample_supervisor : supervisor_t :=
  mk_supervisor 1 (mk_address 1 1).

Definition sample_init_request : message.init_request_t :=
  mk_request (mk_address 2 1) 7 (mk_address 1 1)
             (payload.mk_initialize_actor (mk_address 2 1)).

Definition sample_shutdown_request : message.shutdown_request_t :=
  mk_request (mk_address 2 1) 8 (mk_address 1 1)
             (payload.mk_shutdown_request (mk_address 2 1)).

Definition sample_actor (s : state_t) (ps : plugins_t) : actor_base_t :=
  mk_actor 1 sample_supervisor None s (mk_address 2 1) ps ∅ ∅ ps ps ps ps
           (Some sample_init_request) (Some sample_shutdown_request) ∅.

Definition sample_world (s : state_t) (ps : plugins_t) : world sample_env :=
  mk_world (sample_actor s ps) (mk_sample_env (list_to_set ps) []) [].

Definition sample_handler : handler_ptr_t := mk_handler 5 (mk_address 2 1).

Definition sample_link_request : message.link_request_t :=
  mk_request (mk_address 2 1) 11 (mk_address 8 1)
             (payload.mk_link_request (mk_address 8 1)).

(** A server that accepts links: its [unlink_timeout] is configured. *)
Definition sample_server_world : world sample_env :=
  mk_world
    (mk_actor 1 sample_supervisor (Some 5) OPERATIONAL (mk_address 2 1) []
              ∅ ∅ [] [] [] [] None None ∅)
    (mk_sample_env ∅ []) [].

Definition sample_init_world : world sample_env :=
  sample_world INITIALIZING [1; 2; 12; 3].

Definition sample_shutdown_world : world sample_env :=
  sample_world SHUTTING_DOWN [3; 12; 2; 1].

(** A root supervisor has no shutdown request stored. *)
Definition sample_root_world : world sample_env :=
  mk_world (set_shutdown_request None (sample_actor SHUTTING_DOWN [1; 2]))
           (mk_sample_env ∅ []) [].

Definition sample_plugins_world : world sample_env :=
  sample_world OPERATIONAL [1; 2; 3; 4].

Definition sample_subscription : message.subscription_t :=
  mk_message
    (payload.mk_subscription_confirmation (mk_point sample_handler (mk_address 3 1))).

Definition sample_unsubscription : message.unsubscription_t :=
  mk_message
    (payload.mk_unsubscription_confirmation
       (mk_point sample_handler (mk_address 3 1)) None).

Definition sample_poll_world : world sample_env :=
  sample_world OPERATIONAL [6; 4; 5; 3; 2].

(** ** Construction and activation *)

(** Modelled from the spec: [actor_config_t] is declared in a header that is
    not among the sources; the members are those the constructor reads, as
    far as the model of the actor keeps them. *)
Record actor_config_t : Type := mk_config {
  cfg_supervisor : supervisor_t;
  cfg_unlink_timeout : option N;
  cfg_plugins : plugins_t
}.

(** The loop of the constructor:
    [for (auto plugin : plugins) activating_plugins.insert(plugin->identity())]. *)
Fixpoint insert_identities {W} `{!plugin_iface W} (ps : plugins_t)
    (s : gset identity_t) : gset identity_t :=
  match ps with
  | [] => s
  | plugin :: ps' => insert_identities ps' ({[identity plugin]} ∪ s)
  end.

(** The constructor.  [self] is where the object is built.  The [address]
    member is default-constructed and assigned later; the model, which keeps
    it non-null, takes the value it will hold as [addr].  All other members
    are default-constructed: empty containers and null requests. *)
Definition actor_base_t_ctor {W} `{!plugin_iface W} (self : object_id)
    (addr : address_ptr_t) (cfg : actor_config_t) : actor_base_t :=
  mk_actor self (cfg_supervisor cfg) (cfg_unlink_timeout cfg) NEW addr
    (cfg_plugins cfg) (insert_identities (cfg_plugins cfg) ∅) ∅
    [] [] [] [] None None ∅.

(** The plugins of [cs] commit their activation with success, one after the
    other. *)
Fixpoint commit_plugin_activations {W} `{!plugin_iface W}
    (cs : list plugin_ptr) : M W unit :=
  match cs with
  | [] => ret tt
  | p :: cs' => commit_plugin_activation p true ;; commit_plugin_activations cs'
  end.

(** ** Destruction of messages *)

(** The callbacks that run when a message is destroyed.  Of the payloads the
    actor base sends only [unsubscription_confirmation_t] has a destructor
    of its own, which invokes the callback if the pointer is set. *)
Definition destroy_unsubscription_confirmation
    (p : payload.unsubscription_confirmation_t) : list callback_t :=
  match payload.uc_callback p with
  | Some c => [c]
  | None => []
  end.

Definition destroy_message (m : message_ptr_t) : list callback_t :=
  match m with
  | msg_unsubscription m' => destroy_unsubscription_confirmation (payload m')
  | _ => []
  end.

(** ** Plugins that keep to themselves *)

(** A member function of a plugin changes the plugin objects only: it
    leaves the actor and the queue as they are. *)
Definition env_only {W R} (cb : world W -> R * world W) : Prop :=
  forall w, actor (cb w).2 = actor w /\ queue (cb w).2 = queue w.

(** Plugins that let initialisation and shutdown proceed at once, commit
    their deactivation later and ignore every poll. *)
Definition willing_plugins : plugin_iface sample_env := {|
  identity := sample_identity;
  plugin_actor p e := bool_decide (p ∈ active e);
  activate := sample_activate;
  deactivate p w := mk_world (actor w) (logged (c_deactivate p) (env w)) (queue w);
  handle_init p _ := sample_handle (c_handle_init p) true;
  handle_shutdown p _ := sample_handle (c_handle_shutdown p) true;
  handle_subscription p _ := sample_handle (c_handle_subscription p) IGNORED;
  handle_unsubscription p _ := sample_handle (c_handle_unsubscription p) IGNORED;
  handle_unsubscription_external p _ :=
    sample_handle (c_handle_unsubscription_external p) IGNORED
|}.

(** [do_shutdown], [n] times in a row. *)
Fixpoint do_shutdown_times {W} (NDEBUG : bool) (n : nat) : M W unit :=
  match n with
  | O => ret tt
  | S n' => do_shutdown NDEBUG ;; do_shutdown_times NDEBUG n'
  end.

Definition sample_unsubscription_external : message.unsubscription_external_t :=
  mk_message
    (payload.mk_external_unsubscription (mk_point sample_handler (mk_address 9 4))).

Definition sample_new_world : world sample_env :=
  sample_world NEW [1; 2; 12].

(** ** Reasoning about runs *)

Ltac run_step :=
  cbv beta delta
    [bind ret gets gets_env modify send call call_ abort out_of_fuel assert_
     returned] in *;
  cbn beta iota zeta in *.

(** * Theorems *)

(** ** The lifecycle (C1) *)

Lemma run_entry_target {W} (e : entry_point) (w w' : world W) :
  returned (run_entry e w) = Some w' -> state (actor w') = target e.
Proof.
  destruct e; unfold run_entry, init_start, init_finish, on_start,
    shutdown_start, shutdown_finish; run_step.
  - intros; by simplify_eq.
  - destruct (init_request (actor w)); intros; by simplify_eq.
  - intros; by simplify_eq.
  - intros; by simplify_eq.
  - destruct (shutdown_request (actor w)); intros; by simplify_eq.
Qed.

Lemma run_entries_last {W} (es : list entry_point) (w w' : world W) :
  returned (run_entries es w) = Some w' ->
  state (actor w') = default (state (actor w)) (target <$> last es).
Proof.
  revert w; induction es as [|e es IH]; intros w; cbn [run_entries].
  - run_step. intros; by simplify_eq.
  - unfold bind. destruct (run_entry e w) as [[] w1| |] eqn:He; [|done..].
    intros Hrun. rewrite (IH _ Hrun).
    rewrite last_cons. destruct (last es); cbn; [done|].
    apply (run_entry_target e w). by rewrite He.
Qed.

Lemma run_entries_no_init_start {W} (es : list entry_point) (w w' : world W) :
  Init_start ∉ es ->
  state (actor w) <> INITIALIZING ->
  returned (run_entries es w) = Some w' ->
  state (actor w') <> INITIALIZING.
Proof.
  intros Hes Hs Hrun. rewrite (run_entries_last _ _ _ Hrun).
  destruct (last es) as [e|] eqn:Hlast; cbn; [|done].
  apply last_Some_elem_of in Hlast.
  destruct e; by cbn.
Qed.

Lemma is_successor_target (e : entry_point) (s : state_t) :
  is_successor s (target e) = true <-> s ∈ spec_predecessors e.
Proof.
  rewrite <- (bool_decide_eq_true (s ∈ spec_predecessors e)).
  by destruct e, s.
Qed.

(** Driven in the order of the lifecycle, the entry points follow it, also
    on the error path. *)
Example lifecycle_in_order :
  states_visited [Init_start; Init_finish; On_start; Shutdown_start; Shutdown_finish]
                 (sample_world NEW [])
  = [INITIALIZING; INITIALIZED; OPERATIONAL; SHUTTING_DOWN; SHUTTED_DOWN] /\
  states_visited [Init_start; Shutdown_start; Shutdown_finish] (sample_world NEW [])
  = [INITIALIZING; SHUTTING_DOWN; SHUTTED_DOWN].
Proof. split; reflexivity. Qed.

(** C1, as the code has it.  Every lifecycle entry point assigns its own
    target state whatever the state was, so a step is a successor step of the
    spec's lifecycle exactly when the entry point runs in a predecessor of
    its target; no run of entry points brings an actor back to NEW, and no
    run without [init_start] brings it back to INITIALIZING. *)
Theorem lifecycle_entry_points {W} (es : list entry_point) (w w' : world W) :
  returned (run_entries es w) = Some w' ->
  (forall e, es = [e] ->
     state (actor w') = target e /\
     (is_successor (state (actor w)) (state (actor w')) = true
      <-> state (actor w) ∈ spec_predecessors e)) /\
  (es <> [] -> state (actor w') <> NEW) /\
  (Init_start ∉ es -> state (actor w) <> INITIALIZING ->
   state (actor w') <> INITIALIZING).
Proof.
  intros Hrun. split; [|split].
  - intros e ->. pose proof (run_entries_last _ _ _ Hrun) as Hs. cbn in Hs.
    split; [done|]. rewrite Hs. apply is_successor_target.
  - intros Hne. rewrite (run_entries_last _ _ _ Hrun).
    destruct (last es) as [e|] eqn:Hlast.
    + by destruct e.
    + by apply last_None in Hlast.
  - intros. by eapply run_entries_no_init_start.
Qed.

Lemma lifecycle_entry_points_witness :
  returned (run_entries [Shutdown_start] (sample_world OPERATIONAL []))
  = Some (sample_world SHUTTING_DOWN []) /\
  (forall e, [Shutdown_start] = [e] ->
     state (actor (sample_world SHUTTING_DOWN [])) = target e /\
     (is_successor (state (actor (sample_world OPERATIONAL [])))
                   (state (actor (sample_world SHUTTING_DOWN []))) = true
      <-> state (actor (sample_world OPERATIONAL [])) ∈ spec_predecessors e)) /\
  ([Shutdown_start] <> [] ->
   state (actor (sample_world SHUTTING_DOWN [])) <> NEW) /\
  (Init_start ∉ [Shutdown_start] ->
   state (actor (sample_world OPERATIONAL [])) <> INITIALIZING ->
   state (actor (sample_world SHUTTING_DOWN [])) <> INITIALIZING).
Proof.
  assert (Hrun : returned (run_entries [Shutdown_start] (sample_world OPERATIONAL []))
                 = Some (sample_world SHUTTING_DOWN [])) by reflexivity.
  split; [exact Hrun|].
  exact (lifecycle_entry_points [Shutdown_start] _ _ Hrun).
Defined.

(** C1, as the spec has it, fails: [init_start] on an operational actor
    makes it INITIALIZING again, which is no successor of OPERATIONAL; so
    does the run init_start, init_finish, on_start, init_start of a new
    actor. *)
Lemma lifecycle_not_monotone :
  (exists w',
      returned (run_entry Init_start (sample_world OPERATIONAL [])) = Some w' /\
      state (actor w') = INITIALIZING /\
      is_successor (state (actor (sample_world OPERATIONAL [])))
                   (state (actor w')) = false) /\
  (exists w1 w2,
      returned (run_entries [Init_start; Init_finish; On_start]
                            (sample_world NEW [])) = Some w1 /\
      state (actor w1) = OPERATIONAL /\
      returned (run_entries [Init_start] w1) = Some w2 /\
      state (actor w2) = INITIALIZING).
Proof.
  split.
  - eexists. split; [reflexivity|]. split; [reflexivity|]. by vm_compute.
  - eexists _, _. split; [reflexivity|]. split; [reflexivity|].
    split; reflexivity.
Qed.

(** ** The init walk (C2) *)

Section init_walk.

Context {W : Type} `{!plugin_iface W}.
Hypothesis handle_init_keeps : forall p r, keeps_slot INIT (handle_init p r).

Lemma init_continue_loop_spec (l : plugins_t) : forall (fuel : nat) (w : world W),
  init_plugins (actor w) = l ->
  (length l < fuel)%nat ->
  exists done rest w1,
    l = done ++ rest /\
    init_accepted done w w1 /\
    init_plugins (actor w1) = rest /\
    match rest with
    | [] => init_continue_loop fuel w = Done tt w1
    | p :: _ =>
        exists w2,
          handle_init p (init_request (actor w1)) w1 = (false, w2) /\
          init_continue_loop fuel w = Done tt w2
    end.
Proof.
  induction l as [|p l IH]; intros fuel w Hl Hfuel.
  - exists [], [], w. repeat split; [constructor|done|].
    destruct fuel as [|fuel]; [cbn in Hfuel; lia|].
    cbn [init_continue_loop]. run_step. by rewrite Hl.
  - destruct fuel as [|fuel]; [cbn in Hfuel; lia|].
    cbn [init_continue_loop]. run_step. rewrite Hl.
    pose proof (handle_init_keeps p (init_request (actor w)) w) as Hkeep.
    destruct (handle_init p (init_request (actor w)) w) as [ok w1] eqn:Hcall.
    cbn in Hkeep. rewrite Hl in Hkeep.
    destruct ok.
    + unfold pop_front_init. run_step. rewrite Hkeep.
      destruct (IH fuel (pop_init w1)) as (done & rest & w2 & -> & Hacc & Hrest & Hres).
      { unfold pop_init; cbn. by rewrite Hkeep. }
      { cbn in Hfuel. lia. }
      exists (p :: done), rest, w2. repeat split; [|done|].
      * by econstructor.
      * unfold pop_init in Hres. rewrite Hkeep in Hres. exact Hres.
    + exists [], (p :: l), w. repeat split; [constructor|done|].
      by exists w1.
Qed.

(** C2.  In state INITIALIZING, with plugins that leave [init_plugins]
    alone and fuel for one more iteration than there are plugins,
    [init_continue] asks the plugins from the front: those of [done] returned
    [true] and were popped one after the other, and [rest] stays in the list.
    When [rest] is empty [init_finish] runs: with an init request stored the
    call returns, the reply to that request is the one message added to the
    queue, the request is cleared ([init_request] is null afterwards) and
    the state is INITIALIZED; nothing else of the actor changes.  Otherwise
    the first plugin of [rest] returned [false], the walk stopped there and
    [init_finish] did not run: the call returns the world that plugin
    left. *)
Theorem init_continue_spec (NDEBUG : bool) (fuel : nat) (w : world W) :
  state (actor w) = INITIALIZING ->
  (length (init_plugins (actor w)) < fuel)%nat ->
  exists done rest w1,
    init_plugins (actor w) = done ++ rest /\
    init_accepted done w w1 /\
    init_plugins (actor w1) = rest /\
    match rest with
    | [] =>
        init_continue NDEBUG fuel w = init_finish w1 /\
        forall r, init_request (actor w1) = Some r ->
          init_finish w1
          = Done tt (mk_world
                       (set_state INITIALIZED (set_init_request None (actor w1)))
                       (env w1)
                       (queue w1 ++ [(reply_to_addr r, init_reply r)])) /\
          exists w',
            init_continue NDEBUG fuel w = Done tt w' /\
            state (actor w') = INITIALIZED /\
            init_request (actor w') = None /\
            init_plugins (actor w') = [] /\
            queue w' = queue w1 ++ [(reply_to_addr r, init_reply r)] /\
            env w' = env w1 /\
            shutdown_request (actor w') = shutdown_request (actor w1) /\
            shutdown_plugins (actor w') = shutdown_plugins (actor w1) /\
            plugins (actor w') = plugins (actor w1) /\
            activating_plugins (actor w') = activating_plugins (actor w1) /\
            deactivating_plugins (actor w') = deactivating_plugins (actor w1)
    | p :: _ =>
        exists w2,
          handle_init p (init_request (actor w1)) w1 = (false, w2) /\
          init_continue NDEBUG fuel w = Done tt w2 /\
          init_plugins (actor w2) = rest
    end.
Proof.
  intros Hstate Hfuel.
  destruct (init_continue_loop_spec _ fuel w eq_refl Hfuel)
    as (done & rest & w1 & Hl & Hacc & Hrest & Hres).
  exists done, rest, w1. repeat split; [done..|].
  unfold init_continue. run_step.
  rewrite Hstate, bool_decide_eq_true_2, orb_true_r by done.
  destruct rest as [|p rest].
  - rewrite Hres, Hrest. split; [done|].
    intros r Hr. unfold init_finish. run_step. rewrite Hr. split; [done|].
    eexists. split; [reflexivity|]. cbn. by rewrite Hrest.
  - destruct Hres as (w2 & Hcall & ->). exists w2.
    pose proof (handle_init_keeps p (init_request (actor w1)) w1) as Hkeep.
    rewrite Hcall in Hkeep. cbn in Hkeep. rewrite Hrest in Hkeep.
    by rewrite Hkeep.
Qed.

End init_walk.

Lemma sample_handle_keeps {R : Type} (slot : slot_t) (c : call_t) (r : R) :
  keeps_slot slot (sample_handle c r).
Proof. by intros w. Qed.

Example init_continue_sample_stops :
  init_continue false 5 (sample_world INITIALIZING [1; 2; 12; 3])
  = Done tt
      (mk_world
         (set_init_plugins [12; 3] (sample_actor INITIALIZING [1; 2; 12; 3]))
         (mk_sample_env (list_to_set [1; 2; 12; 3])
            [c_handle_init 1; c_handle_init 2; c_handle_init 12])
         []).
Proof. reflexivity. Qed.

Example init_continue_sample_finishes :
  init_continue false 3 (sample_world INITIALIZING [1; 2])
  = Done tt
      (mk_world
         (set_state INITIALIZED
            (set_init_request None
               (set_init_plugins [] (sample_actor INITIALIZING [1; 2]))))
         (mk_sample_env (list_to_set [1; 2]) [c_handle_init 1; c_handle_init 2])
         [(mk_address 1 1, init_reply sample_init_request)]).
Proof. reflexivity. Qed.

Lemma init_continue_spec_witness :
  (forall p r, keeps_slot INIT (handle_init (W := sample_env) p r)) /\
  state (actor sample_init_world) = INITIALIZING /\
  (length (init_plugins (actor sample_init_world)) < 5)%nat /\
  exists done rest w1,
    init_plugins (actor sample_init_world) = done ++ rest /\
    init_accepted done sample_init_world w1 /\
    init_plugins (actor w1) = rest /\
    match rest with
    | [] =>
        init_continue false 5 sample_init_world
        = init_finish w1 /\
        forall r, init_request (actor w1) = Some r ->
          init_finish w1
          = Done tt (mk_world
                       (set_state INITIALIZED (set_init_request None (actor w1)))
                       (env w1)
                       (queue w1 ++ [(reply_to_addr r, init_reply r)])) /\
          exists w',
            init_continue false 5 sample_init_world = Done tt w' /\
            state (actor w') = INITIALIZED /\
            init_request (actor w') = None /\
            init_plugins (actor w') = [] /\
            queue w' = queue w1 ++ [(reply_to_addr r, init_reply r)] /\
            env w' = env w1 /\
            shutdown_request (actor w') = shutdown_request (actor w1) /\
            shutdown_plugins (actor w') = shutdown_plugins (actor w1) /\
            plugins (actor w') = plugins (actor w1) /\
            activating_plugins (actor w') = activating_plugins (actor w1) /\
            deactivating_plugins (actor w') = deactivating_plugins (actor w1)
    | p :: _ =>
        exists w2,
          handle_init p (init_request (actor w1)) w1 = (false, w2) /\
          init_continue false 5 sample_init_world
          = Done tt w2 /\
          init_plugins (actor w2) = rest
    end.
Proof.
  assert (Hkeep : forall p r, keeps_slot INIT (handle_init (W := sample_env) p r))
    by (intros p r; apply sample_handle_keeps).
  split; [exact Hkeep|]. split; [reflexivity|]. split; [cbn; lia|].
  apply (init_continue_spec Hkeep false 5 sample_init_world).
  - reflexivity.
  - cbn; lia.
Defined.

(** ** The shutdown walk (C3) *)

Section shutdown_walk.

Context {W : Type} `{!plugin_iface W}.
Hypothesis handle_shutdown_keeps :
  forall p r, keeps_slot SHUTDOWN (handle_shutdown p r).

Lemma shutdown_continue_loop_spec (l : plugins_t) :
  forall (fuel : nat) (w : world W),
  shutdown_plugins (actor w) = rev l ->
  (length l < fuel)%nat ->
  exists done rest w1,
    l = done ++ rest /\
    shutdown_accepted done w w1 /\
    shutdown_plugins (actor w1) = rev rest /\
    match rest with
    | [] => shutdown_continue_loop fuel w = Done tt w1
    | p :: _ =>
        exists w2,
          handle_shutdown p (shutdown_request (actor w1)) w1 = (false, w2) /\
          shutdown_continue_loop fuel w = Done tt w2
    end.
Proof.
  induction l as [|p l IH]; intros fuel w Hl Hfuel.
  - exists [], [], w. repeat split; [constructor|done|].
    destruct fuel as [|fuel]; [cbn in Hfuel; lia|].
    cbn [shutdown_continue_loop]. run_step. by rewrite Hl.
  - destruct fuel as [|fuel]; [cbn in Hfuel; lia|].
    cbn [rev] in Hl.
    cbn [shutdown_continue_loop]. run_step. rewrite Hl, last_snoc.
    pose proof (handle_shutdown_keeps p (shutdown_request (actor w)) w) as Hkeep.
    destruct (handle_shutdown p (shutdown_request (actor w)) w) as [ok w1] eqn:Hcall.
    cbn in Hkeep. rewrite Hl in Hkeep.
    destruct ok.
    + unfold pop_back_shutdown. run_step. rewrite Hkeep.
      destruct (IH fuel (pop_shutdown w1)) as (done & rest & w2 & -> & Hacc & Hrest & Hres).
      { unfold pop_shutdown; cbn. by rewrite Hkeep, removelast_last. }
      { cbn in Hfuel. lia. }
      exists (p :: done), rest, w2. repeat split; [|done|].
      * by econstructor.
      * unfold pop_shutdown in Hres. rewrite Hkeep in Hres.
        destruct (rev (done ++ rest) ++ [p]) eqn:Heq; [|exact Hres].
        by destruct (rev (done ++ rest)).
    + exists [], (p :: l), w. repeat split; [constructor|done|].
      by exists w1.
Qed.

(** C3.  In state SHUTTING_DOWN, with plugins that leave [shutdown_plugins]
    alone and fuel for one more iteration than there are plugins,
    [shutdown_continue] asks the plugins from the back: those of [done], in
    the order asked, returned [true] and were popped one after the other, and
    [rest] stays in the list.  When [rest] is empty [shutdown_finish] runs:
    it replies to the stored shutdown request and clears it if there is one,
    and sets the state to SHUT_DOWN in either case.  Otherwise the last
    plugin of [rest] returned [false], the walk stopped there and
    [shutdown_finish] did not run. *)
Theorem shutdown_continue_spec (NDEBUG : bool) (fuel : nat) (w : world W) :
  state (actor w) = SHUTTING_DOWN ->
  (length (shutdown_plugins (actor w)) < fuel)%nat ->
  exists done rest w1,
    shutdown_plugins (actor w) = rest ++ rev done /\
    shutdown_accepted done w w1 /\
    shutdown_plugins (actor w1) = rest /\
    match last rest with
    | None =>
        shutdown_continue NDEBUG fuel w = shutdown_finish w1 /\
        shutdown_finish w1 = Done tt (shutdown_finished w1) /\
        state (actor (shutdown_finished w1)) = SHUTTED_DOWN
    | Some p =>
        exists w2,
          handle_shutdown p (shutdown_request (actor w1)) w1 = (false, w2) /\
          shutdown_continue NDEBUG fuel w = Done tt w2 /\
          shutdown_plugins (actor w2) = rest
    end.
Proof.
  intros Hstate Hfuel.
  destruct (shutdown_continue_loop_spec (rev (shutdown_plugins (actor w))) fuel w)
    as (done & rest & w1 & Hl & Hacc & Hrest & Hres).
  { by rewrite rev_involutive. }
  { by rewrite length_rev. }
  exists done, (rev rest), w1.
  split. { by rewrite <- rev_app_distr, <- Hl, rev_involutive. }
  split; [done|]. split; [done|].
  unfold shutdown_continue. run_step.
  rewrite Hstate, bool_decide_eq_true_2, orb_true_r by done.
  destruct rest as [|p rest].
  - cbn. rewrite Hres, Hrest. cbn. split; [done|].
    unfold shutdown_finish, shutdown_finished. run_step.
    by destruct (shutdown_request (actor w1)).
  - cbn [rev]. rewrite last_snoc.
    destruct Hres as (w2 & Hcall & ->). exists w2.
    pose proof (handle_shutdown_keeps p (shutdown_request (actor w1)) w1) as Hkeep.
    rewrite Hcall in Hkeep. cbn in Hkeep. rewrite Hrest in Hkeep.
    cbn [rev] in Hkeep. rewrite Hkeep. repeat split; [done|].
    by destruct (rev rest).
Qed.

End shutdown_walk.

Example shutdown_continue_sample_stops :
  shutdown_continue false 5 sample_shutdown_world
  = Done tt
      (mk_world
         (set_shutdown_plugins [3; 12] (sample_actor SHUTTING_DOWN [3; 12; 2; 1]))
         (mk_sample_env (list_to_set [3; 12; 2; 1])
            [c_handle_shutdown 1; c_handle_shutdown 2; c_handle_shutdown 12])
         []).
Proof. reflexivity. Qed.

Example shutdown_continue_sample_root :
  shutdown_continue false 3 sample_root_world
  = Done tt
      (mk_world
         (set_state SHUTTED_DOWN
            (set_shutdown_plugins []
               (set_shutdown_request None (sample_actor SHUTTING_DOWN [1; 2]))))
         (mk_sample_env ∅ [c_handle_shutdown 2; c_handle_shutdown 1])
         []).
Proof. reflexivity. Qed.

Example shutdown_continue_sample_replies :
  shutdown_continue false 3 (sample_world SHUTTING_DOWN [1; 2])
  = Done tt
      (mk_world
         (set_state SHUTTED_DOWN
            (set_shutdown_request None
               (set_shutdown_plugins [] (sample_actor SHUTTING_DOWN [1; 2]))))
         (mk_sample_env (list_to_set [1; 2])
            [c_handle_shutdown 2; c_handle_shutdown 1])
         [(mk_address 1 1, shutdown_reply sample_shutdown_request)]).
Proof. reflexivity. Qed.

Lemma shutdown_continue_spec_witness :
  (forall p r, keeps_slot SHUTDOWN (handle_shutdown (W := sample_env) p r)) /\
  state (actor sample_shutdown_world) = SHUTTING_DOWN /\
  (length (shutdown_plugins (actor sample_shutdown_world)) < 5)%nat /\
  exists done rest w1,
    shutdown_plugins (actor sample_shutdown_world) = rest ++ rev done /\
    shutdown_accepted done sample_shutdown_world w1 /\
    shutdown_plugins (actor w1) = rest /\
    match last rest with
    | None =>
        shutdown_continue false 5 sample_shutdown_world = shutdown_finish w1 /\
        shutdown_finish w1 = Done tt (shutdown_finished w1) /\
        state (actor (shutdown_finished w1)) = SHUTTED_DOWN
    | Some p =>
        exists w2,
          handle_shutdown p (shutdown_request (actor w1)) w1 = (false, w2) /\
          shutdown_continue false 5 sample_shutdown_world = Done tt w2 /\
          shutdown_plugins (actor w2) = rest
    end.
Proof.
  assert (Hkeep : forall p r,
             keeps_slot SHUTDOWN (handle_shutdown (W := sample_env) p r))
    by (intros p r; apply sample_handle_keeps).
  split; [exact Hkeep|]. split; [reflexivity|]. split; [cbn; lia|].
  apply (shutdown_continue_spec Hkeep false 5 sample_shutdown_world).
  - reflexivity.
  - cbn; lia.
Defined.

(** ** Deactivation of plugins and the destructor (C4) *)

Lemma foldr_min_elem_of (x : N) (xs : list N) : foldr N.min x xs ∈ x :: xs.
Proof.
  induction xs as [|y xs IH]; cbn.
  - apply elem_of_cons; by left.
  - destruct (N.min_spec y (foldr N.min x xs)) as [[_ ->] | [_ ->]].
    + apply elem_of_cons; right. apply elem_of_cons; by left.
    + apply elem_of_cons in IH as [-> | IH].
      * apply elem_of_cons; by left.
      * apply elem_of_cons; right. apply elem_of_cons; by right.
Qed.

Lemma set_begin_elem_of (s : gset identity_t) : s <> ∅ -> set_begin s ∈ s.
Proof.
  intros Hne. unfold set_begin.
  destruct (elements s) as [|x xs] eqn:Hel.
  - by apply elements_empty_inv, leibniz_equiv in Hel.
  - apply elem_of_elements. rewrite Hel. apply foldr_min_elem_of.
Qed.

Lemma destructor_spec {W} (w : world W) :
  nullptr ∉ deactivating_plugins (actor w) ->
  (deactivating_plugins (actor w) = ∅ -> destructor false w = Done tt w) /\
  (deactivating_plugins (actor w) <> ∅ -> destructor false w = Aborted).
Proof.
  intros Hnull. unfold destructor. run_step. split; intros Hd.
  - by rewrite bool_decide_eq_false_2 by (by intros []).
  - rewrite bool_decide_eq_true_2 by done. cbn.
    destruct (N.eqb_spec (set_begin (deactivating_plugins (actor w))) nullptr)
      as [Heq|]; [|done].
    destruct Hnull. rewrite <- Heq. by apply set_begin_elem_of.
Qed.

Lemma commit_plugin_deactivations_spec {W} `{!plugin_iface W}
    (cs : list plugin_ptr) (w : world W) :
  commit_plugin_deactivations cs w
  = Done tt
      (mk_world
         (set_deactivating_plugins
            (deactivating_plugins (actor w) ∖ list_to_set (identity <$> cs))
            (actor w))
         (env w) (queue w)).
Proof.
  revert w; induction cs as [|p cs IH]; intros w; cbn [commit_plugin_deactivations].
  - run_step. cbn. rewrite difference_empty_L. by destruct w as [[] ? ?].
  - unfold commit_plugin_deactivation at 1. run_step. rewrite IH. cbn.
    unfold set_deactivating_plugins; cbn. do 3 f_equal.
    apply difference_difference_l_L.
Qed.

Section deactivation.

Context {W : Type} `{!plugin_iface W}.
Hypothesis deactivate_keeps :
  forall p (w : world W), plugins (actor (deactivate p w)) = plugins (actor w).

Lemma deactivate_plugins_from_spec (pre : plugins_t) :
  forall (post : plugins_t) (w : world W),
  plugins (actor w) = pre ++ post ->
  exists w',
    deactivate_plugins_from (length pre) w = Done tt w' /\
    deactivated pre w w' /\
    plugins (actor w') = plugins (actor w).
Proof.
  induction pre as [|p pre IH] using rev_ind; intros post w Hps.
  - exists w. repeat split. constructor.
  - rewrite length_app, Nat.add_1_r. cbn [deactivate_plugins_from]. run_step.
    assert (Hlook : plugins (actor w) !! length pre = Some p)
      by (rewrite Hps, <- app_assoc; by apply list_lookup_middle).
    rewrite Hlook.
    destruct (plugin_actor p (env w)) eqn:Hactive.
    + set (w1 := deactivate p (insert_deactivating (identity p) w)).
      assert (Hps1 : plugins (actor w1) = plugins (actor w))
        by (unfold w1; by rewrite deactivate_keeps).
      destruct (IH (p :: post) w1) as (w' & Hrun & Hrel & Hps').
      { by rewrite Hps1, Hps, <- app_assoc. }
      exists w'. split; [exact Hrun|]. split; [|congruence].
      by apply deactivated_active.
    + destruct (IH (p :: post) w) as (w' & Hrun & Hrel & Hps').
      { by rewrite Hps, <- app_assoc. }
      exists w'. split; [|split; [|done]].
      * destruct w; exact Hrun.
      * by apply deactivated_inactive.
Qed.

(** C4.  A failed activation, [commit_plugin_activation(plugin, false)], runs
    [deactivate_plugins]; with plugins that leave the list of plugins alone
    this visits the plugins in reverse order, enters the identity of each
    active one in [deactivating_plugins] before asking it to deactivate and
    skips the inactive ones.  [commit_plugin_deactivation] erases the
    identity.  The destructor (with assertions, identities not null) aborts
    unless [deactivating_plugins] is empty: after the commits of [cs] the
    actor can be destroyed exactly when every pending identity was
    committed. *)
Theorem deactivate_plugins_spec (plugin : plugin_ptr) (cs : list plugin_ptr)
    (w : world W) :
  nullptr ∉ deactivating_plugins (actor w) ->
  commit_plugin_activation plugin false w = deactivate_plugins w /\
  (exists w', deactivate_plugins w = Done tt w' /\
              deactivated (plugins (actor w)) w w') /\
  commit_plugin_deactivation plugin w
  = Done tt (erase_deactivating (identity plugin) w) /\
  (destructor false w = Done tt w <-> deactivating_plugins (actor w) = ∅) /\
  (destructor false w = Aborted <-> deactivating_plugins (actor w) <> ∅) /\
  ((commit_plugin_deactivations cs ;; destructor false) w <> Aborted
   <-> deactivating_plugins (actor w) ⊆ list_to_set (identity <$> cs)).
Proof.
  intros Hnull.
  destruct (destructor_spec w Hnull) as [Hempty Hpending].
  split; [reflexivity|]. split; [|split; [reflexivity|]].
  - unfold deactivate_plugins. run_step.
    destruct (deactivate_plugins_from_spec (plugins (actor w)) [] w)
      as (w' & Hrun & Hrel & _).
    { by rewrite app_nil_r. }
    by exists w'.
  - split; [|split].
    + split; [|exact Hempty]. intros Hrun.
      destruct (decide (deactivating_plugins (actor w) = ∅)) as [Hd|Hd]; [done|].
      by rewrite (Hpending Hd) in Hrun.
    + split; [|exact Hpending]. intros Hrun Hd.
      by rewrite (Hempty Hd) in Hrun.
    + unfold bind at 1. rewrite commit_plugin_deactivations_spec.
      set (w1 := mk_world _ _ _).
      assert (Hnull1 : nullptr ∉ deactivating_plugins (actor w1)).
      { unfold w1; cbn. apply not_elem_of_difference. by left. }
      destruct (destructor_spec w1 Hnull1) as [Hempty1 Hpending1].
      destruct (decide (deactivating_plugins (actor w1) = ∅)) as [Hd1|Hd1].
      * rewrite (Hempty1 Hd1). split; [|done]. intros _.
        by apply empty_difference_subseteq_L.
      * rewrite (Hpending1 Hd1). split; [done|]. intros Hsub.
        destruct Hd1. unfold w1; cbn. by apply subseteq_empty_difference_L.
Qed.

End deactivation.

Lemma sample_deactivate_keeps (p : plugin_ptr) (w : world sample_env) :
  plugins (actor (deactivate p w)) = plugins (actor w).
Proof. cbn. unfold sample_deactivate. by destruct (N.even p). Qed.

(** The last plugin is asked first; plugins 4 and 2 commit from within
    [deactivate], after their identity was entered, so only the identities of
    1 and 3 are pending at the end. *)
Example deactivate_plugins_sample :
  deactivate_plugins sample_plugins_world
  = Done tt
      (mk_world
         (set_deactivating_plugins {[101; 103]} (sample_actor OPERATIONAL [1; 2; 3; 4]))
         (mk_sample_env {[1; 3]}
            [c_deactivate 4; c_deactivate 3; c_deactivate 2; c_deactivate 1])
         []).
Proof. by vm_compute. Qed.

(** An inactive plugin is skipped. *)
Example deactivate_plugins_sample_skips :
  deactivate_plugins
    (mk_world (sample_actor OPERATIONAL [1; 2; 3; 4]) (mk_sample_env {[1; 4]} []) [])
  = Done tt
      (mk_world
         (set_deactivating_plugins {[101]} (sample_actor OPERATIONAL [1; 2; 3; 4]))
         (mk_sample_env {[1]} [c_deactivate 4; c_deactivate 1])
         []).
Proof. by vm_compute. Qed.

Example destructor_sample_pending :
  (deactivate_plugins ;; destructor false) sample_plugins_world = Aborted /\
  (deactivate_plugins ;; (commit_plugin_deactivations [3; 1] ;; destructor false))
    sample_plugins_world
  <> Aborted.
Proof. split; by vm_compute. Qed.

Lemma deactivate_plugins_spec_witness :
  (forall p (w : world sample_env),
      plugins (actor (deactivate p w)) = plugins (actor w)) /\
  (nullptr ∉ deactivating_plugins (actor sample_plugins_world)) /\
  commit_plugin_activation 2 false sample_plugins_world
  = deactivate_plugins sample_plugins_world /\
  (exists w', deactivate_plugins sample_plugins_world = Done tt w' /\
              deactivated (plugins (actor sample_plugins_world))
                          sample_plugins_world w') /\
  commit_plugin_deactivation 2 sample_plugins_world
  = Done tt (erase_deactivating (identity 2) sample_plugins_world) /\
  (destructor false sample_plugins_world = Done tt sample_plugins_world
   <-> deactivating_plugins (actor sample_plugins_world) = ∅) /\
  (destructor false sample_plugins_world = Aborted
   <-> deactivating_plugins (actor sample_plugins_world) <> ∅) /\
  ((commit_plugin_deactivations [3; 1] ;; destructor false) sample_plugins_world
   <> Aborted
   <-> deactivating_plugins (actor sample_plugins_world)
       ⊆ list_to_set (identity <$> [3; 1])).
Proof.
  assert (Hnull : nullptr ∉ deactivating_plugins (actor sample_plugins_world))
    by (cbn; apply not_elem_of_empty).
  split; [exact sample_deactivate_keeps|]. split; [exact Hnull|].
  exact (deactivate_plugins_spec sample_deactivate_keeps 2 [3; 1]
           sample_plugins_world Hnull).
Defined.

(** ** Polling the subscription slots (C5) *)

Lemma slot_get_set (slot : slot_t) (v : plugins_t) (a : actor_base_t) :
  slot_get slot (slot_set slot v a) = v.
Proof. by destruct slot. Qed.

Section polling.

Context {W Msg : Type}.
Variable slot : slot_t.
Variable fn : plugin_ptr -> Msg -> world W -> processing_result_t * world W.
Hypothesis fn_keeps : forall p m, keeps_slot slot (fn p m).

Lemma poll_from_spec (message : Msg) (earlier : plugins_t) :
  forall (kept : plugins_t) (w : world W),
  slot_get slot (actor w) = earlier ++ kept ->
  exists out w',
    poll_from slot message fn (length earlier) w = Done tt w' /\
    polled slot message fn earlier kept w out w' /\
    slot_get slot (actor w') = out.
Proof.
  induction earlier as [|p earlier IH] using rev_ind; intros kept w Hslot.
  - exists kept, w. repeat split; [constructor|done].
  - rewrite length_app, Nat.add_1_r. cbn [poll_from]. run_step.
    assert (Hlook : slot_get slot (actor w) !! length earlier = Some p)
      by (rewrite Hslot, <- app_assoc; by apply list_lookup_middle).
    rewrite Hlook.
    pose proof (fn_keeps p message w) as Hkeep.
    destruct (fn p message w) as [result w1] eqn:Hcall. cbn in Hkeep.
    rewrite Hslot, <- app_assoc in Hkeep. cbn [app] in Hkeep.
    destruct result.
    + destruct (IH (p :: kept) w1 Hkeep) as (out & w' & Hrun & Hrel & Hout).
      exists out, w'. repeat split; [done| |done].
      by eapply polled_ignored.
    + exists (earlier ++ p :: kept), w1. repeat split; [|done].
      by apply polled_consumed.
    + rewrite Hkeep, delete_middle.
      destruct (IH kept (with_slot slot (earlier ++ kept) w1))
        as (out & w' & Hrun & Hrel & Hout).
      { cbn. apply slot_get_set. }
      exists out, w'. repeat split; [done| |done].
      by eapply polled_finished.
Qed.

Lemma poll_spec (message : Msg) (w : world W) :
  exists out w',
    poll slot message fn w = Done tt w' /\
    polled slot message fn (slot_get slot (actor w)) [] w out w' /\
    slot_get slot (actor w') = out.
Proof.
  unfold poll. run_step. apply poll_from_spec. by rewrite app_nil_r.
Qed.

End polling.

Lemma install_plugin_spec {W} (plugin : plugin_ptr) (slot : slot_t) (w : world W) :
  install_plugin plugin slot w
  = Done tt (with_slot slot (slot_get slot (actor w) ++ [plugin]) w).
Proof. reflexivity. Qed.

(** C5.  With plugins that leave the polled slot alone, a subscription
    confirmation polls [subscription_plugins] and an unsubscription
    confirmation polls [unsubscription_plugins], from the last plugin of the
    slot, the one installed last, to the first: an IGNORED plugin stays and
    the one before it is polled, a CONSUMED one stops the poll and stays, a
    FINISHED one is erased, it alone, and the one before it is polled. *)
Theorem on_subscription_spec {W} `{!plugin_iface W}
    (sub : message.subscription_t) (unsub : message.unsubscription_t)
    (plugin : plugin_ptr) (w : world W) :
  (forall p m, keeps_slot SUBSCRIPTION (handle_subscription p m)) ->
  (forall p m, keeps_slot UNSUBSCRIPTION (handle_unsubscription p m)) ->
  (exists out w',
      on_subscription sub w = Done tt w' /\
      polled SUBSCRIPTION sub handle_subscription
             (subscription_plugins (actor w)) [] w out w' /\
      subscription_plugins (actor w') = out) /\
  (exists out w',
      on_unsubscription unsub w = Done tt w' /\
      polled UNSUBSCRIPTION unsub handle_unsubscription
             (unsubscription_plugins (actor w)) [] w out w' /\
      unsubscription_plugins (actor w') = out) /\
  (forall slot,
      install_plugin plugin slot w
      = Done tt (with_slot slot (slot_get slot (actor w) ++ [plugin]) w)).
Proof.
  intros Hsub Hunsub. split; [|split].
  - apply (poll_spec SUBSCRIPTION handle_subscription Hsub sub w).
  - apply (poll_spec UNSUBSCRIPTION handle_unsubscription Hunsub unsub w).
  - intros slot. apply install_plugin_spec.
Qed.

(** Plugins 2 and 5 finish and leave, 3 ignores and stays, 4 consumes: 6 is
    not polled. *)
Example on_subscription_sample :
  on_subscription sample_subscription sample_poll_world
  = Done tt
      (mk_world
         (set_subscription_plugins [6; 4; 3] (sample_actor OPERATIONAL [6; 4; 5; 3; 2]))
         (mk_sample_env (list_to_set [6; 4; 5; 3; 2])
            [c_handle_subscription 2; c_handle_subscription 3;
             c_handle_subscription 5; c_handle_subscription 4])
         []).
Proof. reflexivity. Qed.

Example on_unsubscription_sample :
  on_unsubscription sample_unsubscription sample_poll_world
  = Done tt
      (mk_world
         (set_unsubscription_plugins [6; 4; 3] (sample_actor OPERATIONAL [6; 4; 5; 3; 2]))
         (mk_sample_env (list_to_set [6; 4; 5; 3; 2])
            [c_handle_unsubscription 2; c_handle_unsubscription 3;
             c_handle_unsubscription 5; c_handle_unsubscription 4])
         []).
Proof. reflexivity. Qed.

(** The plugin installed last is polled first. *)
Example on_subscription_sample_installed :
  (install_plugin 7 SUBSCRIPTION ;; on_subscription sample_subscription)
    (sample_world OPERATIONAL [3])
  = Done tt
      (mk_world
         (set_subscription_plugins [3; 7] (sample_actor OPERATIONAL [3]))
         (mk_sample_env (list_to_set [3]) [c_handle_subscription 7])
         []).
Proof. reflexivity. Qed.

Lemma on_subscription_spec_witness :
  (forall p m, keeps_slot SUBSCRIPTION (handle_subscription (W := sample_env) p m)) /\
  (forall p m, keeps_slot UNSUBSCRIPTION (handle_unsubscription (W := sample_env) p m)) /\
  (exists out w',
      on_subscription sample_subscription sample_poll_world = Done tt w' /\
      polled SUBSCRIPTION sample_subscription handle_subscription
             (subscription_plugins (actor sample_poll_world)) []
             sample_poll_world out w' /\
      subscription_plugins (actor w') = out) /\
  (exists out w',
      on_unsubscription sample_unsubscription sample_poll_world = Done tt w' /\
      polled UNSUBSCRIPTION sample_unsubscription handle_unsubscription
             (unsubscription_plugins (actor sample_poll_world)) []
             sample_poll_world out w' /\
      unsubscription_plugins (actor w') = out) /\
  (forall slot,
      install_plugin 7 slot sample_poll_world
      = Done tt (with_slot slot (slot_get slot (actor sample_poll_world) ++ [7])
                           sample_poll_world)).
Proof.
  assert (Hsub : forall p m,
             keeps_slot SUBSCRIPTION (handle_subscription (W := sample_env) p m))
    by (intros p m; apply sample_handle_keeps).
  assert (Hunsub : forall p m,
             keeps_slot UNSUBSCRIPTION (handle_unsubscription (W := sample_env) p m))
    by (intros p m; apply sample_handle_keeps).
  split; [exact Hsub|]. split; [exact Hunsub|].
  exact (on_subscription_spec sample_subscription sample_unsubscription 7
           sample_poll_world Hsub Hunsub).
Defined.

(** ** Unsubscription (C6, C10) *)

(** C6, as the code has it.  On the local path [unsubscribe] sends exactly
    one [unsubscription_confirmation] with the point and the callback to the
    address of the handler's actor.  On the external path it sends exactly
    one [external_unsubscription] with the point, and no confirmation,
    provided no callback was passed or assertions are compiled out. *)
Theorem unsubscribe_spec {W} (NDEBUG : bool) (h : handler_ptr_t)
    (addr : address_ptr_t) (callback : callback_ptr_t) (w : world W) :
  (addr_supervisor addr = this (actor w) ->
   unsubscribe NDEBUG h addr callback w
   = Done tt (mk_world (actor w) (env w)
                (queue w ++ [unsubscription_item h addr callback]))) /\
  (addr_supervisor addr <> this (actor w) ->
   NDEBUG = true \/ callback = None ->
   unsubscribe NDEBUG h addr callback w
   = Done tt (mk_world (actor w) (env w)
                (queue w ++ [external_unsubscription_item h addr])) /\
   filter is_unsubscription_confirmation
          (queue w ++ [external_unsubscription_item h addr])
   = filter is_unsubscription_confirmation (queue w)).
Proof.
  unfold unsubscribe, unsubscription_item, external_unsubscription_item,
    message_ctor. run_step.
  split.
  - intros ->. by rewrite N.eqb_refl.
  - intros Hext Hok. apply N.eqb_neq in Hext. rewrite Hext.
    split.
    + destruct Hok as [-> | ->]; [done|]. by rewrite orb_true_r.
    + rewrite filter_app. cbn. apply app_nil_r.
Qed.

Lemma unsubscribe_spec_witness :
  addr_supervisor (mk_address 9 4) <> this (actor (sample_world OPERATIONAL [])) /\
  (false = true \/ @None callback_t = None) /\
  unsubscribe false sample_handler (mk_address 9 4) None
              (sample_world OPERATIONAL [])
  = Done tt (mk_world (sample_actor OPERATIONAL []) (mk_sample_env ∅ [])
               [external_unsubscription_item sample_handler (mk_address 9 4)]) /\
  addr_supervisor (mk_address 3 1) = this (actor (sample_world OPERATIONAL [])) /\
  unsubscribe false sample_handler (mk_address 3 1) (Some 6)
              (sample_world OPERATIONAL [])
  = Done tt (mk_world (sample_actor OPERATIONAL []) (mk_sample_env ∅ [])
               [unsubscription_item sample_handler (mk_address 3 1) (Some 6)]).
Proof.
  split; [discriminate|]. split; [by right|]. split; [|split; [reflexivity|]].
  - apply (unsubscribe_spec false sample_handler (mk_address 9 4) None
             (sample_world OPERATIONAL [])); [discriminate|by right].
  - apply (unsubscribe_spec false sample_handler (mk_address 3 1) (Some 6)
             (sample_world OPERATIONAL [])). reflexivity.
Defined.

(** C6, as the spec has it, fails: on the external path a call that passes
    a callback sends nothing in a build with assertions; it aborts. *)
Lemma unsubscribe_external_with_callback :
  addr_supervisor (mk_address 9 4) <> this (actor (sample_world OPERATIONAL [])) /\
  unsubscribe false sample_handler (mk_address 9 4) (Some 6)
              (sample_world OPERATIONAL [])
  = Aborted.
Proof. split; [discriminate|reflexivity]. Qed.

(** C10.  On the external path the callback must be absent: with assertions,
    a call that passes one aborts; a call that returns after passing a
    callback took the local path and sent the callback in the confirmation;
    and what is sent on the external path is the same with or without a
    callback, the [external_unsubscription] holding the point only. *)
Theorem unsubscribe_callback_local_only {W} (h : handler_ptr_t)
    (addr : address_ptr_t) (c : callback_t) (w : world W) :
  (addr_supervisor addr <> this (actor w) ->
   unsubscribe false h addr (Some c) w = Aborted) /\
  (forall w', returned (unsubscribe false h addr (Some c) w) = Some w' ->
   addr_supervisor addr = this (actor w) /\
   queue w' = queue w ++ [unsubscription_item h addr (Some c)]) /\
  (forall NDEBUG w',
   addr_supervisor addr <> this (actor w) ->
   returned (unsubscribe NDEBUG h addr (Some c) w) = Some w' ->
   unsubscribe NDEBUG h addr None w = Done tt w' /\
   queue w' = queue w ++ [external_unsubscription_item h addr]).
Proof.
  unfold unsubscribe, unsubscription_item, external_unsubscription_item,
    message_ctor. run_step.
  split; [|split].
  - intros Hext. apply N.eqb_neq in Hext. by rewrite Hext.
  - intros w'. destruct (N.eqb_spec (addr_supervisor addr) (this (actor w)));
      cbn; [|done].
    intros; by simplify_eq.
  - intros NDEBUG w' Hext. apply N.eqb_neq in Hext. rewrite Hext.
    destruct NDEBUG; cbn; [|done]. intros; by simplify_eq.
Qed.

Lemma unsubscribe_callback_local_only_witness :
  addr_supervisor (mk_address 9 4) <> this (actor (sample_world OPERATIONAL [])) /\
  unsubscribe false sample_handler (mk_address 9 4) (Some 6)
              (sample_world OPERATIONAL [])
  = Aborted.
Proof.
  split; [discriminate|].
  apply (unsubscribe_callback_local_only sample_handler (mk_address 9 4) 6
           (sample_world OPERATIONAL [])).
  discriminate.
Defined.

(** ** The message envelope (C7) *)




(** ** Linking (C8) *)



(** ** Triggering shutdown (C9) *)

(** C9.  [do_shutdown] asserts that the state is neither NEW nor UNKNOWN: in
    a build with assertions it aborts there.  Under that precondition (and in
    any state once assertions are compiled out) it sends exactly one
    [shutdown_trigger] carrying the actor's own address to the address of its
    supervisor and leaves the actor as it was; it never returns without
    having sent the message. *)
Theorem do_shutdown_spec {W} (NDEBUG : bool) (w : world W) :
  (NDEBUG = false ->
   state (actor w) = NEW \/ state (actor w) = UNKNOWN ->
   do_shutdown NDEBUG w = Aborted) /\
  (state (actor w) <> NEW -> state (actor w) <> UNKNOWN ->
   do_shutdown NDEBUG w
   = Done tt (mk_world (actor w) (env w)
                       (queue w ++ [shutdown_trigger_item (actor w)]))) /\
  (forall w', returned (do_shutdown NDEBUG w) = Some w' ->
   actor w' = actor w /\ env w' = env w /\
   queue w' = queue w ++ [shutdown_trigger_item (actor w)]).
Proof.
  unfold do_shutdown, shutdown_trigger_item, message_ctor. run_step.
  split; [|split].
  - intros -> [-> | ->]; reflexivity.
  - intros H1 H2. rewrite !bool_decide_eq_true_2 by done.
    by rewrite orb_true_r.
  - intros w'. destruct (NDEBUG || _); cbn; [|done].
    intros; by simplify_eq.
Qed.

Lemma do_shutdown_spec_witness :
  state (actor (sample_world OPERATIONAL [])) <> NEW /\
  state (actor (sample_world OPERATIONAL [])) <> UNKNOWN /\
  do_shutdown false (sample_world OPERATIONAL [])
  = Done tt (mk_world (sample_actor OPERATIONAL []) (mk_sample_env ∅ [])
               [(mk_address 1 1,
                 msg_shutdown_trigger
                   (mk_message (payload.mk_shutdown_trigger (mk_address 2 1))))]) /\
  do_shutdown false (sample_world NEW []) = Aborted.
Proof.
  split; [discriminate|]. split; [discriminate|]. split.
  - apply (do_shutdown_spec false (sample_world OPERATIONAL [])); discriminate.
  - apply (do_shutdown_spec false (sample_world NEW [])); [reflexivity|by left].
Defined.

(** * Further properties of the code *)

(** ** Construction and activation *)

Lemma insert_identities_spec {W} `{!plugin_iface W} (ps : plugins_t)
    (s : gset identity_t) :
  insert_identities ps s = list_to_set (identity <$> ps) ∪ s.
Proof.
  revert s; induction ps as [|p ps IH]; intros s; cbn.
  - by rewrite union_empty_l_L.
  - rewrite IH. rewrite (union_comm_L {[identity p]} (list_to_set _)).
    by rewrite union_assoc_L.
Qed.

Lemma commit_plugin_activations_spec {W} `{!plugin_iface W}
    (cs : list plugin_ptr) (w : world W) :
  commit_plugin_activations cs w
  = Done tt
      (mk_world
         (set_activating_plugins
            (activating_plugins (actor w) ∖ list_to_set (identity <$> cs))
            (actor w))
         (env w) (queue w)).
Proof.
  revert w; induction cs as [|p cs IH]; intros w; cbn [commit_plugin_activations].
  - run_step. cbn. rewrite difference_empty_L. by destruct w as [[] ? ?].
  - unfold commit_plugin_activation at 1. run_step. rewrite IH. cbn.
    unfold set_activating_plugins; cbn. do 3 f_equal.
    apply difference_difference_l_L.
Qed.

(** X1.  A freshly constructed actor is NEW and waits for the activation of
    every plugin it was configured with: [activating_plugins] holds their
    identities.  Commits with success only erase identities; they call no
    plugin and send nothing.  Activation is complete, [activating_plugins]
    empty, exactly when the identity of every configured plugin has been
    committed. *)
Theorem activation_completes {W} `{!plugin_iface W} (self : object_id)
    (addr : address_ptr_t) (cfg : actor_config_t) (cs : list plugin_ptr)
    (e : W) (q : list queue_item) :
  let a := actor_base_t_ctor self addr cfg in
  state a = NEW /\
  activating_plugins a = list_to_set (identity <$> cfg_plugins cfg) /\
  exists a',
    commit_plugin_activations cs (mk_world a e q) = Done tt (mk_world a' e q) /\
    a' = set_activating_plugins
           (list_to_set (identity <$> cfg_plugins cfg)
            ∖ list_to_set (identity <$> cs)) a /\
    (activating_plugins a' = ∅
     <-> forall p, p ∈ cfg_plugins cfg -> identity p ∈ identity <$> cs).
Proof.
  intros a.
  assert (Ha : activating_plugins a = list_to_set (identity <$> cfg_plugins cfg)).
  { unfold a, actor_base_t_ctor; cbn.
    by rewrite insert_identities_spec, union_empty_r_L. }
  split; [done|]. split; [done|].
  eexists. split; [apply commit_plugin_activations_spec|].
  cbn [actor env queue]. rewrite Ha. split; [done|]. cbn.
  split.
  - intros Hempty p Hp. apply empty_difference_subseteq_L in Hempty.
    assert (Hin : identity p ∈ (list_to_set (identity <$> cs) : gset identity_t)).
    { apply Hempty, elem_of_list_to_set. by apply list_elem_of_fmap_2. }
    by apply elem_of_list_to_set in Hin.
  - intros Hall. apply subseteq_empty_difference_L.
    intros i Hi. apply elem_of_list_to_set in Hi.
    apply list_elem_of_fmap in Hi as (p & -> & Hp).
    apply elem_of_list_to_set. by apply Hall.
Qed.

(** ** [do_initialize] *)

Section activation.

Context {W : Type} `{!plugin_iface W}.
Hypothesis activate_keeps :
  forall p (w : world W), plugins (actor (activate p w)) = plugins (actor w).

Lemma activate_plugins_from_spec (post : plugins_t) :
  forall (pre : plugins_t) (w : world W),
  plugins (actor w) = pre ++ post ->
  activate_plugins_from (length post) (length pre) w
  = Done tt (foldl (fun w p => activate p w) w post).
Proof.
  induction post as [|p post IH]; intros pre w Hps; [done|].
  cbn [length activate_plugins_from foldl]. run_step.
  rewrite Hps, list_lookup_middle by done.
  replace (S (length pre)) with (length (pre ++ [p]))
    by (rewrite length_app; cbn; lia).
  apply IH. by rewrite activate_keeps, Hps, <- app_assoc.
Qed.

(** X2.  With plugins that leave the list of plugins alone, [do_initialize]
    asks every plugin to activate exactly once, from the first to the last,
    each in the world the one before it left; it does nothing else. *)
Theorem do_initialize_spec (w : world W) :
  do_initialize w
  = Done tt (foldl (fun w p => activate p w) w (plugins (actor w))).
Proof.
  unfold do_initialize, activate_plugins. run_step.
  by apply (activate_plugins_from_spec _ []).
Qed.

End activation.

Lemma sample_activate_keeps (p : plugin_ptr) (w : world sample_env) :
  plugins (actor (activate p w)) = plugins (actor w).
Proof. reflexivity. Qed.

(** Activation goes forward, deactivation backward. *)
Example do_initialize_sample :
  (do_initialize ;; deactivate_plugins)
    (mk_world (sample_actor NEW [1; 3; 5]) (mk_sample_env ∅ []) [])
  = Done tt
      (mk_world
         (set_deactivating_plugins {[101; 103; 105]} (sample_actor NEW [1; 3; 5]))
         (mk_sample_env {[1; 3; 5]}
            [c_activate 1; c_activate 3; c_activate 5;
             c_deactivate 5; c_deactivate 3; c_deactivate 1])
         []).
Proof. by vm_compute. Qed.

Lemma do_initialize_spec_witness :
  (forall p (w : world sample_env),
      plugins (actor (activate p w)) = plugins (actor w)) /\
  do_initialize sample_plugins_world
  = Done tt (foldl (fun w p => activate p w) sample_plugins_world
                   (plugins (actor sample_plugins_world))).
Proof.
  split; [exact sample_activate_keeps|].
  exact (do_initialize_spec sample_activate_keeps sample_plugins_world).
Defined.

(** ** Installing and uninstalling plugins *)

Lemma find_index_first (plugin : plugin_ptr) (l1 l2 : plugins_t) :
  plugin ∉ l1 -> find_index plugin (l1 ++ plugin :: l2) = Some (length l1).
Proof.
  induction l1 as [|p l1 IH]; intros Hnot; cbn.
  - by rewrite N.eqb_refl.
  - apply not_elem_of_cons in Hnot as [Hne Hnot].
    destruct (N.eqb_spec p plugin) as [->|_]; [done|].
    by rewrite IH.
Qed.

Lemma find_index_None (plugin : plugin_ptr) (l : plugins_t) :
  plugin ∉ l -> find_index plugin l = None.
Proof.
  induction l as [|p l IH]; intros Hnot; cbn; [done|].
  apply not_elem_of_cons in Hnot as [Hne Hnot].
  destruct (N.eqb_spec p plugin) as [->|_]; [done|].
  by rewrite IH.
Qed.

Lemma with_slot_same {W} (slot : slot_t) (w : world W) :
  with_slot slot (slot_get slot (actor w)) w = w.
Proof. destruct w as [[] ? ?]. by destruct slot. Qed.

Lemma with_slot_twice {W} (slot : slot_t) (v v' : plugins_t) (w : world W) :
  with_slot slot v' (with_slot slot v w) = with_slot slot v' w.
Proof. by destruct slot. Qed.

Lemma uninstall_plugin_first {W} (plugin : plugin_ptr) (slot : slot_t)
    (l1 l2 : plugins_t) (w : world W) :
  slot_get slot (actor w) = l1 ++ plugin :: l2 ->
  plugin ∉ l1 ->
  uninstall_plugin plugin slot w = Done tt (with_slot slot (l1 ++ l2) w).
Proof.
  intros Hslot Hnot. unfold uninstall_plugin. run_step.
  rewrite Hslot, find_index_first by done. by rewrite delete_middle.
Qed.


Lemma sample_not_installed : 7 ∉ slot_get INIT (actor sample_init_world).
Proof.
  cbn. rewrite !not_elem_of_cons. repeat split; [discriminate..|].
  apply not_elem_of_nil.
Qed.


Lemma snoc_is_cons (plugin : plugin_ptr) (l : plugins_t) :
  l ++ [plugin] = plugin :: l <-> Forall (fun p => p = plugin) l.
Proof.
  induction l as [|x l IH]; cbn.
  - split; [constructor|done].
  - split.
    + intros Heq. injection Heq as -> Heq. constructor; [done|]. by apply IH.
    + intros Hall. apply Forall_cons in Hall as [-> Hall].
      f_equal. by apply IH.
Qed.

Lemma with_slot_fixed {W} (slot : slot_t) (v : plugins_t) (w : world W) :
  with_slot slot v w = w <-> v = slot_get slot (actor w).
Proof.
  split.
  - intros Heq. rewrite <- Heq at 1. cbn. by rewrite slot_get_set.
  - intros ->. apply with_slot_same.
Qed.

(** X4.  Installing a plugin in a slot that does not hold it and
    uninstalling it again gives back the very same world.  If the slot holds
    the plugin already, the older occurrence is the one erased and the
    plugin ends up at the back; the world is then the same as before exactly
    when nothing but that plugin follows its first occurrence in the
    slot. *)
Theorem install_uninstall_spec {W} (plugin : plugin_ptr) (slot : slot_t)
    (w : world W) :
  (plugin ∉ slot_get slot (actor w) ->
   (install_plugin plugin slot ;; uninstall_plugin plugin slot) w = Done tt w) /\
  (forall l1 l2,
      slot_get slot (actor w) = l1 ++ plugin :: l2 ->
      plugin ∉ l1 ->
      (install_plugin plugin slot ;; uninstall_plugin plugin slot) w
      = Done tt (with_slot slot (l1 ++ l2 ++ [plugin]) w) /\
      ((install_plugin plugin slot ;; uninstall_plugin plugin slot) w = Done tt w
       <-> Forall (fun p => p = plugin) l2)).
Proof.
  unfold bind. rewrite install_plugin_spec. split.
  - intros Hnot.
    rewrite (uninstall_plugin_first plugin slot (slot_get slot (actor w)) []);
      [|cbn; by rewrite slot_get_set|done].
    by rewrite with_slot_twice, app_nil_r, with_slot_same.
  - intros l1 l2 Hslot Hnot.
    rewrite (uninstall_plugin_first plugin slot l1 (l2 ++ [plugin]));
      [|cbn; by rewrite slot_get_set, Hslot, <- app_assoc|done].
    rewrite with_slot_twice. split; [done|].
    rewrite <- snoc_is_cons. split.
    + intros Heq. injection Heq as Heq. apply with_slot_fixed in Heq.
      rewrite Hslot in Heq. by apply app_inv_head in Heq.
    + intros Heq. f_equal. apply with_slot_fixed. by rewrite Hslot, Heq.
Qed.

Lemma install_uninstall_spec_witness :
  (7 ∉ slot_get INIT (actor sample_init_world)) /\
  (install_plugin 7 INIT ;; uninstall_plugin 7 INIT) sample_init_world
  = Done tt sample_init_world /\
  slot_get INIT (actor sample_init_world) = [1] ++ 2 :: [12; 3] /\
  (2 ∉ [1]) /\
  (install_plugin 2 INIT ;; uninstall_plugin 2 INIT) sample_init_world
  = Done tt (with_slot INIT ([1] ++ [12; 3] ++ [2]) sample_init_world) /\
  slot_get INIT (actor sample_init_world) = [1; 2; 12] ++ 3 :: [] /\
  (3 ∉ [1; 2; 12]) /\
  (install_plugin 3 INIT ;; uninstall_plugin 3 INIT) sample_init_world
  = Done tt sample_init_world.
Proof.
  assert (Hnot : 2 ∉ [1]).
  { rewrite not_elem_of_cons. split; [discriminate|apply not_elem_of_nil]. }
  assert (Hnot3 : 3 ∉ [1; 2; 12]).
  { rewrite !not_elem_of_cons. repeat split; [discriminate..|].
    apply not_elem_of_nil. }
  split; [exact sample_not_installed|]. split; [|split; [reflexivity|split]].
  - apply (install_uninstall_spec 7 INIT sample_init_world).
    exact sample_not_installed.
  - exact Hnot.
  - split; [|split; [reflexivity|split; [exact Hnot3|]]].
    + apply (proj2 (install_uninstall_spec 2 INIT sample_init_world) [1] [12; 3]);
        [reflexivity|exact Hnot].
    + apply (proj2 (install_uninstall_spec 3 INIT sample_init_world) [1; 2; 12] []);
        [reflexivity|exact Hnot3|constructor].
Defined.

(** ** What a poll does to the slot *)

Section polling_slot.

Context {W Msg : Type}.
Variable slot : slot_t.
Variable fn : plugin_ptr -> Msg -> world W -> processing_result_t * world W.
Hypothesis fn_keeps : forall p m, keeps_slot slot (fn p m).

Lemma polled_sublist (message : Msg) (earlier kept out : plugins_t)
    (w w' : world W) :
  polled slot message fn earlier kept w out w' ->
  out `sublist_of` earlier ++ kept.
Proof.
  induction 1 as [kept w|earlier p kept w w1 out w2 _ _ IH
                 |earlier p kept w w1 _|earlier p kept w w1 out w2 _ _ IH].
  - done.
  - by rewrite <- app_assoc.
  - by rewrite <- app_assoc.
  - rewrite <- app_assoc. etrans; [exact IH|].
    apply sublist_app; [done|]. by apply sublist_cons.
Qed.

Lemma polled_no_finished (message : Msg) (earlier kept out : plugins_t)
    (w w' : world W) :
  (forall p w0, (fn p message w0).1 <> FINISHED) ->
  polled slot message fn earlier kept w out w' ->
  out = earlier ++ kept.
Proof.
  intros Hnf.
  induction 1 as [kept w|earlier p kept w w1 out w2 _ _ IH
                 |earlier p kept w w1 _|earlier p kept w w1 out w2 Hcall _ _].
  - done.
  - by rewrite IH, <- app_assoc.
  - by rewrite <- app_assoc.
  - destruct (Hnf p w). by rewrite Hcall.
Qed.

Lemma polled_all_finished (message : Msg) (earlier kept out : plugins_t)
    (w w' : world W) :
  (forall p w0, (fn p message w0).1 = FINISHED) ->
  polled slot message fn earlier kept w out w' ->
  out = kept.
Proof.
  intros Hf.
  induction 1 as [kept w|earlier p kept w w1 out w2 Hcall _ _
                 |earlier p kept w w1 Hcall|earlier p kept w w1 out w2 _ _ IH].
  - done.
  - specialize (Hf p w). by rewrite Hcall in Hf.
  - specialize (Hf p w). by rewrite Hcall in Hf.
  - done.
Qed.

(** X5.  With plugins that leave the slot alone, a poll returns and never
    adds a plugin to the slot nor reorders it: the slot afterwards is a
    sublist of the slot before. *)
Theorem poll_never_adds (message : Msg) (w : world W) :
  exists w',
    poll slot message fn w = Done tt w' /\
    slot_get slot (actor w') `sublist_of` slot_get slot (actor w) /\
    (length (slot_get slot (actor w')) <= length (slot_get slot (actor w)))%nat.
Proof.
  destruct (poll_spec slot fn fn_keeps message w) as (out & w' & Hrun & Hrel & <-).
  exists w'. split; [done|].
  apply polled_sublist in Hrel. rewrite app_nil_r in Hrel.
  split; [done|]. by apply sublist_length.
Qed.

(** X6.  With plugins that leave the slot alone: if no plugin ever answers
    FINISHED the poll leaves the slot as it was; if every plugin answers
    FINISHED the poll empties it; and if the last plugin answers CONSUMED no
    other plugin is asked, the poll ends in the world that plugin left. *)
Theorem poll_by_answers (message : Msg) (w : world W) :
  exists w',
    poll slot message fn w = Done tt w' /\
    ((forall p w0, (fn p message w0).1 <> FINISHED) ->
     slot_get slot (actor w') = slot_get slot (actor w)) /\
    ((forall p w0, (fn p message w0).1 = FINISHED) ->
     slot_get slot (actor w') = []) /\
    (forall l p w1,
        slot_get slot (actor w) = l ++ [p] ->
        fn p message w = (CONSUMED, w1) ->
        w' = w1).
Proof.
  destruct (poll_spec slot fn fn_keeps message w) as (out & w' & Hrun & Hrel & <-).
  exists w'. split; [done|]. split; [|split].
  - intros Hnf. rewrite (polled_no_finished _ _ _ _ _ _ Hnf Hrel).
    apply app_nil_r.
  - intros Hf. apply (polled_all_finished _ _ _ _ _ _ Hf Hrel).
  - intros l p w1 Hslot Hcall.
    unfold poll in Hrun. run_step.
    rewrite Hslot, length_app, Nat.add_1_r in Hrun. cbn [poll_from] in Hrun.
    run_step.
    rewrite Hslot, list_lookup_middle, Hcall in Hrun by (by rewrite app_nil_r || done).
    by simplify_eq.
Qed.

End polling_slot.

Lemma poll_never_adds_witness :
  (forall p m,
      keeps_slot SUBSCRIPTION
        (handle_subscription (W := sample_env) p m)) /\
  exists w',
    poll SUBSCRIPTION sample_subscription handle_subscription sample_poll_world
    = Done tt w' /\
    slot_get SUBSCRIPTION (actor w')
      `sublist_of` slot_get SUBSCRIPTION (actor sample_poll_world) /\
    (length (slot_get SUBSCRIPTION (actor w'))
     <= length (slot_get SUBSCRIPTION (actor sample_poll_world)))%nat.
Proof.
  assert (Hsub : forall p m,
             keeps_slot SUBSCRIPTION (handle_subscription (W := sample_env) p m))
    by (intros p m; apply sample_handle_keeps).
  split; [exact Hsub|].
  exact (poll_never_adds SUBSCRIPTION handle_subscription Hsub
           sample_subscription sample_poll_world).
Defined.

Lemma poll_by_answers_witness :
  (forall p m,
      keeps_slot SUBSCRIPTION
        (handle_subscription (plugin_iface := willing_plugins) p m)) /\
  exists w',
    poll SUBSCRIPTION sample_subscription
         (handle_subscription (plugin_iface := willing_plugins))
         sample_poll_world
    = Done tt w' /\
    ((forall p w0,
         (handle_subscription (plugin_iface := willing_plugins)
            p sample_subscription w0).1 <> FINISHED) ->
     slot_get SUBSCRIPTION (actor w')
     = slot_get SUBSCRIPTION (actor sample_poll_world)) /\
    ((forall p w0,
         (handle_subscription (plugin_iface := willing_plugins)
            p sample_subscription w0).1 = FINISHED) ->
     slot_get SUBSCRIPTION (actor w') = []) /\
    (forall l p w1,
        slot_get SUBSCRIPTION (actor sample_poll_world) = l ++ [p] ->
        handle_subscription (plugin_iface := willing_plugins)
          p sample_subscription sample_poll_world = (CONSUMED, w1) ->
        w' = w1).
Proof.
  assert (Hsub : forall p m,
             keeps_slot SUBSCRIPTION
               (handle_subscription (plugin_iface := willing_plugins) p m))
    by (intros p m; apply sample_handle_keeps).
  split; [exact Hsub|].
  exact (poll_by_answers SUBSCRIPTION
           (handle_subscription (plugin_iface := willing_plugins)) Hsub
           sample_subscription sample_poll_world).
Defined.

(** ** External unsubscription *)

(** X7.  An external unsubscription polls [unsubscription_plugins], the slot
    the unsubscription confirmations poll too, with
    [handle_unsubscription_external], from the last plugin to the first and
    by the same rules; with plugins that leave the slot alone it returns and
    the slot afterwards is a sublist of the slot before. *)
Theorem on_unsubscription_external_spec {W} `{!plugin_iface W}
    (m : message.unsubscription_external_t) (w : world W) :
  (forall p m', keeps_slot UNSUBSCRIPTION (handle_unsubscription_external p m')) ->
  exists out w',
    on_unsubscription_external m w = Done tt w' /\
    polled UNSUBSCRIPTION m handle_unsubscription_external
           (unsubscription_plugins (actor w)) [] w out w' /\
    unsubscription_plugins (actor w') = out /\
    out `sublist_of` unsubscription_plugins (actor w).
Proof.
  intros Hkeep.
  destruct (poll_spec UNSUBSCRIPTION handle_unsubscription_external Hkeep m w)
    as (out & w' & Hrun & Hrel & Hout).
  exists out, w'. repeat split; [done..|].
  apply (polled_sublist UNSUBSCRIPTION handle_unsubscription_external) in Hrel.
  by rewrite app_nil_r in Hrel.
Qed.

(** The external message and the confirmation share the slot: plugins 2 and
    5, finished by the external message, are not there for the
    confirmation. *)
Example on_unsubscription_external_sample :
  (on_unsubscription_external sample_unsubscription_external ;;
   on_unsubscription sample_unsubscription) sample_poll_world
  = Done tt
      (mk_world
         (set_unsubscription_plugins [6; 4; 3] (sample_actor OPERATIONAL [6; 4; 5; 3; 2]))
         (mk_sample_env (list_to_set [6; 4; 5; 3; 2])
            [c_handle_unsubscription_external 2;
             c_handle_unsubscription_external 3;
             c_handle_unsubscription_external 5;
             c_handle_unsubscription_external 4;
             c_handle_unsubscription 3; c_handle_unsubscription 4])
         []).
Proof. reflexivity. Qed.

Lemma on_unsubscription_external_spec_witness :
  (forall p m',
      keeps_slot UNSUBSCRIPTION
        (handle_unsubscription_external (W := sample_env) p m')) /\
  exists out w',
    on_unsubscription_external sample_unsubscription_external sample_poll_world
    = Done tt w' /\
    polled UNSUBSCRIPTION sample_unsubscription_external
           handle_unsubscription_external
           (unsubscription_plugins (actor sample_poll_world)) []
           sample_poll_world out w' /\
    unsubscription_plugins (actor w') = out /\
    out `sublist_of` unsubscription_plugins (actor sample_poll_world).
Proof.
  assert (Hkeep : forall p m',
             keeps_slot UNSUBSCRIPTION
               (handle_unsubscription_external (W := sample_env) p m'))
    by (intros p m'; apply sample_handle_keeps).
  split; [exact Hkeep|].
  exact (on_unsubscription_external_spec sample_unsubscription_external
           sample_poll_world Hkeep).
Defined.

(** ** Finishing once *)

Lemma set_state_same (a : actor_base_t) (s : state_t) :
  state a = s -> set_state s a = a.
Proof. intros <-. by destruct a. Qed.

(** X8.  Initialisation finishes once.  When [init_continue] returns with
    [init_plugins] empty it has run [init_finish]: the state is INITIALIZED
    and the init request is gone.  Any further [init_continue] aborts: with
    assertions because the state is no longer INITIALIZING, without them
    because [init_finish] dereferences the cleared request. *)
Theorem init_continue_finishes_once {W} `{!plugin_iface W} (NDEBUG : bool)
    (fuel : nat) (w w' : world W) :
  init_continue NDEBUG fuel w = Done tt w' ->
  init_plugins (actor w') = [] ->
  state (actor w') = INITIALIZED /\
  init_request (actor w') = None /\
  forall NDEBUG' fuel', init_continue NDEBUG' (S fuel') w' = Aborted.
Proof.
  intros Hrun Hempty.
  assert (Hfin : state (actor w') = INITIALIZED /\ init_request (actor w') = None).
  { unfold init_continue in Hrun. run_step.
    destruct (NDEBUG || _); [|done].
    destruct (init_continue_loop fuel w) as [[] w1| |]; [|done..].
    destruct (init_plugins (actor w1)) as [|p ps] eqn:Hps.
    - unfold init_finish in Hrun. run_step.
      destruct (init_request (actor w1)); [|done]. by simplify_eq.
    - simplify_eq. by rewrite Hps in Hempty. }
  destruct Hfin as [Hstate Hreq]. split; [done|]. split; [done|].
  intros NDEBUG' fuel'. unfold init_continue. cbn [init_continue_loop].
  unfold init_finish. run_step.
  rewrite Hstate. destruct NDEBUG'; cbn; [|done].
  rewrite Hempty. cbn. by rewrite Hempty, Hreq.
Qed.

Lemma init_continue_finishes_once_witness :
  init_continue false 3 (sample_world INITIALIZING [1; 2])
  = Done tt
      (mk_world
         (set_state INITIALIZED
            (set_init_request None
               (set_init_plugins [] (sample_actor INITIALIZING [1; 2]))))
         (mk_sample_env (list_to_set [1; 2]) [c_handle_init 1; c_handle_init 2])
         [(mk_address 1 1, init_reply sample_init_request)]) /\
  forall NDEBUG' fuel',
    init_continue NDEBUG' (S fuel')
      (mk_world
         (set_state INITIALIZED
            (set_init_request None
               (set_init_plugins [] (sample_actor INITIALIZING [1; 2]))))
         (mk_sample_env (list_to_set [1; 2]) [c_handle_init 1; c_handle_init 2])
         [(mk_address 1 1, init_reply sample_init_request)])
    = Aborted.
Proof.
  assert (Hrun : init_continue false 3 (sample_world INITIALIZING [1; 2])
    = Done tt
      (mk_world
         (set_state INITIALIZED
            (set_init_request None
               (set_init_plugins [] (sample_actor INITIALIZING [1; 2]))))
         (mk_sample_env (list_to_set [1; 2]) [c_handle_init 1; c_handle_init 2])
         [(mk_address 1 1, init_reply sample_init_request)])) by reflexivity.
  split; [exact Hrun|].
  apply (init_continue_finishes_once false 3 _ _ Hrun). reflexivity.
Defined.

Lemma shutdown_finish_twice {W} (w : world W) :
  (shutdown_finish ;; shutdown_finish) w = shutdown_finish w.
Proof.
  unfold shutdown_finish. run_step.
  destruct (shutdown_request (actor w)) eqn:Hreq; cbn; by rewrite ?Hreq.
Qed.

(** X9.  The shutdown reply is sent at most once.  When [shutdown_continue]
    returns with [shutdown_plugins] empty it has run [shutdown_finish]: the
    state is SHUT_DOWN and the shutdown request is gone.  A further
    [shutdown_continue] aborts in a build with assertions; without them it
    returns the world unchanged, with no second reply. *)
Theorem shutdown_continue_finishes_once {W} `{!plugin_iface W} (NDEBUG : bool)
    (fuel : nat) (w w' : world W) :
  shutdown_continue NDEBUG fuel w = Done tt w' ->
  shutdown_plugins (actor w') = [] ->
  state (actor w') = SHUTTED_DOWN /\
  shutdown_request (actor w') = None /\
  forall fuel',
    shutdown_continue false (S fuel') w' = Aborted /\
    shutdown_continue true (S fuel') w' = Done tt w'.
Proof.
  intros Hrun Hempty.
  assert (Hfin : state (actor w') = SHUTTED_DOWN /\ shutdown_request (actor w') = None).
  { unfold shutdown_continue in Hrun. run_step.
    destruct (NDEBUG || _); [|done].
    destruct (shutdown_continue_loop fuel w) as [[] w1| |]; [|done..].
    destruct (shutdown_plugins (actor w1)) as [|p ps] eqn:Hps.
    - unfold shutdown_finish in Hrun. run_step.
      destruct (shutdown_request (actor w1)) eqn:Hreq; cbn in Hrun; by simplify_eq.
    - simplify_eq. by rewrite Hps in Hempty. }
  destruct Hfin as [Hstate Hreq]. split; [done|]. split; [done|].
  intros fuel'. unfold shutdown_continue. cbn [shutdown_continue_loop].
  unfold shutdown_finish. run_step.
  rewrite Hstate. cbn. split; [done|].
  rewrite Hempty. cbn. rewrite Hempty, Hreq. cbn.
  rewrite set_state_same by done. by destruct w'.
Qed.

Lemma shutdown_continue_finishes_once_witness :
  shutdown_continue false 3 sample_root_world
  = Done tt
      (mk_world
         (set_state SHUTTED_DOWN
            (set_shutdown_plugins []
               (set_shutdown_request None (sample_actor SHUTTING_DOWN [1; 2]))))
         (mk_sample_env ∅ [c_handle_shutdown 2; c_handle_shutdown 1])
         []) /\
  forall fuel',
    shutdown_continue false (S fuel')
      (mk_world
         (set_state SHUTTED_DOWN
            (set_shutdown_plugins []
               (set_shutdown_request None (sample_actor SHUTTING_DOWN [1; 2]))))
         (mk_sample_env ∅ [c_handle_shutdown 2; c_handle_shutdown 1])
         []) = Aborted.
Proof.
  assert (Hrun : shutdown_continue false 3 sample_root_world
    = Done tt
      (mk_world
         (set_state SHUTTED_DOWN
            (set_shutdown_plugins []
               (set_shutdown_request None (sample_actor SHUTTING_DOWN [1; 2]))))
         (mk_sample_env ∅ [c_handle_shutdown 2; c_handle_shutdown 1])
         [])) by reflexivity.
  split; [exact Hrun|].
  intros fuel'.
  apply (shutdown_continue_finishes_once false 3 _ _ Hrun). reflexivity.
Defined.

(** X10.  [init_finish] cannot run twice in a row: whatever the world, the
    second run, if not the first, dereferences a null init request.
    [shutdown_finish] can: the second run changes nothing and replies to
    nobody. *)
Theorem finish_twice {W} (w : world W) :
  (init_finish ;; init_finish) w = Aborted /\
  (shutdown_finish ;; shutdown_finish) w = shutdown_finish w /\
  (forall w', shutdown_finish w = Done tt w' -> shutdown_finish w' = Done tt w').
Proof.
  split; [|split].
  - unfold init_finish. run_step. by destruct (init_request (actor w)).
  - apply shutdown_finish_twice.
  - intros w' Hrun. pose proof (shutdown_finish_twice w) as Htwice.
    unfold bind in Htwice. by rewrite Hrun in Htwice.
Qed.

(** ** Triggering shutdown again *)

(** X11.  [do_shutdown] is not idempotent and has no guard against an actor
    that is shutting down or shut down: in every state but NEW and UNKNOWN,
    [n] calls enqueue [n] triggers and leave the actor as it was. *)
Theorem do_shutdown_times_spec {W} (NDEBUG : bool) (n : nat) (w : world W) :
  state (actor w) <> NEW ->
  state (actor w) <> UNKNOWN ->
  do_shutdown_times NDEBUG n w
  = Done tt (mk_world (actor w) (env w)
               (queue w ++ replicate n (shutdown_trigger_item (actor w)))).
Proof.
  intros H1 H2. revert w H1 H2.
  induction n as [|n IH]; intros w H1 H2; cbn [do_shutdown_times replicate].
  - run_step. rewrite app_nil_r. by destruct w.
  - unfold bind. unfold do_shutdown, message_ctor. run_step.
    rewrite !bool_decide_eq_true_2, orb_true_r by done. cbn.
    rewrite IH by done. cbn. by rewrite <- app_assoc.
Qed.

Lemma do_shutdown_times_spec_witness :
  state (actor (sample_world SHUTTED_DOWN [])) <> NEW /\
  state (actor (sample_world SHUTTED_DOWN [])) <> UNKNOWN /\
  do_shutdown_times false 2 (sample_world SHUTTED_DOWN [])
  = Done tt
      (mk_world (actor (sample_world SHUTTED_DOWN []))
                (env (sample_world SHUTTED_DOWN []))
                (queue (sample_world SHUTTED_DOWN [])
                 ++ replicate 2 (shutdown_trigger_item
                                   (actor (sample_world SHUTTED_DOWN []))))).
Proof.
  split; [discriminate|]. split; [discriminate|].
  apply (do_shutdown_times_spec false 2 (sample_world SHUTTED_DOWN []));
    discriminate.
Defined.

(** ** The callback of an unsubscription *)

(** X12.  Every call of [unsubscribe] that returns has enqueued exactly one
    message, for the address of the handler's actor.  The callback runs when
    that message is destroyed, once, if it was passed on the local path; on
    the external path nothing runs: a callback passed there in a build
    without assertions is dropped. *)
Theorem unsubscribe_callback_runs {W} (NDEBUG : bool) (h : handler_ptr_t)
    (addr : address_ptr_t) (callback : callback_ptr_t) (w w' : world W) :
  returned (unsubscribe NDEBUG h addr callback w) = Some w' ->
  exists m,
    queue w' = queue w ++ [(actor_ptr_address h, m)] /\
    actor w' = actor w /\
    destroy_message m
    = if N.eqb (addr_supervisor addr) (this (actor w))
      then option_list callback
      else [].
Proof.
  unfold unsubscribe, message_ctor. run_step.
  destruct (N.eqb (addr_supervisor addr) (this (actor w))); cbn.
  - intros; simplify_eq. eexists. by repeat split.
  - destruct (NDEBUG || _); cbn; [|done].
    intros; simplify_eq. eexists. by repeat split.
Qed.

Lemma unsubscribe_callback_runs_witness :
  returned (unsubscribe true sample_handler (mk_address 9 4) (Some 6)
                        (sample_world OPERATIONAL []))
  = Some (mk_world (sample_actor OPERATIONAL []) (mk_sample_env ∅ [])
            [external_unsubscription_item sample_handler (mk_address 9 4)]) /\
  exists m,
    [external_unsubscription_item sample_handler (mk_address 9 4)]
    = [] ++ [(mk_address 2 1, m)] /\
    sample_actor OPERATIONAL [] = sample_actor OPERATIONAL [] /\
    destroy_message m = [].
Proof.
  assert (Hrun :
    returned (unsubscribe true sample_handler (mk_address 9 4) (Some 6)
                          (sample_world OPERATIONAL []))
    = Some (mk_world (sample_actor OPERATIONAL []) (mk_sample_env ∅ [])
              [external_unsubscription_item sample_handler (mk_address 9 4)]))
    by reflexivity.
  split; [exact Hrun|].
  exact (unsubscribe_callback_runs true sample_handler (mk_address 9 4) (Some 6)
           _ _ Hrun).
Defined.

(** ** A whole life with willing plugins *)

Lemma set_init_plugins_same (a : actor_base_t) (l : plugins_t) :
  init_plugins a = l -> set_init_plugins l a = a.
Proof. intros <-. by destruct a. Qed.

Lemma set_shutdown_plugins_same (a : actor_base_t) (l : plugins_t) :
  shutdown_plugins a = l -> set_shutdown_plugins l a = a.
Proof. intros <-. by destruct a. Qed.

Lemma set_shutdown_request_same (a : actor_base_t)
    (r : option message.shutdown_request_t) :
  shutdown_request a = r -> set_shutdown_request r a = a.
Proof. intros <-. by destruct a. Qed.

Section willing.

Context {W : Type} `{!plugin_iface W}.
Hypothesis handle_init_env : forall p r, env_only (handle_init p r).
Hypothesis handle_init_ok : forall p r (w : world W), (handle_init p r w).1 = true.
Hypothesis handle_shutdown_env : forall p r, env_only (handle_shutdown p r).
Hypothesis handle_shutdown_ok :
  forall p r (w : world W), (handle_shutdown p r w).1 = true.

Lemma init_continue_loop_willing (l : plugins_t) :
  forall (fuel : nat) (w : world W),
  init_plugins (actor w) = l ->
  (length l < fuel)%nat ->
  exists e',
    init_continue_loop fuel w
    = Done tt (mk_world (set_init_plugins [] (actor w)) e' (queue w)).
Proof.
  induction l as [|p l IH]; intros fuel w Hl Hfuel;
    (destruct fuel as [|fuel]; [cbn in Hfuel; lia|]);
    cbn [init_continue_loop]; run_step; rewrite Hl.
  - exists (env w). rewrite set_init_plugins_same by done. by destruct w.
  - pose proof (handle_init_ok p (init_request (actor w)) w) as Hok.
    destruct (handle_init_env p (init_request (actor w)) w) as [Ha Hq].
    destruct (handle_init p (init_request (actor w)) w) as [ok w1].
    cbn in Hok, Ha, Hq. subst ok.
    unfold pop_front_init. run_step. rewrite Ha, Hl.
    destruct (IH fuel (mk_world (set_init_plugins l (actor w1)) (env w1) (queue w1)))
      as [e' Hrun]; [done|cbn in Hfuel; lia|].
    exists e'. rewrite Hrun. cbn. by rewrite ?Ha, ?Hq.
Qed.

Lemma shutdown_continue_loop_willing (l : plugins_t) :
  forall (fuel : nat) (w : world W),
  shutdown_plugins (actor w) = rev l ->
  (length l < fuel)%nat ->
  exists e',
    shutdown_continue_loop fuel w
    = Done tt (mk_world (set_shutdown_plugins [] (actor w)) e' (queue w)).
Proof.
  induction l as [|p l IH]; intros fuel w Hl Hfuel;
    (destruct fuel as [|fuel]; [cbn in Hfuel; lia|]);
    cbn [shutdown_continue_loop]; run_step; rewrite Hl.
  - exists (env w). rewrite set_shutdown_plugins_same by done. by destruct w.
  - cbn [rev]. rewrite last_snoc.
    pose proof (handle_shutdown_ok p (shutdown_request (actor w)) w) as Hok.
    destruct (handle_shutdown_env p (shutdown_request (actor w)) w) as [Ha Hq].
    destruct (handle_shutdown p (shutdown_request (actor w)) w) as [ok w1].
    cbn in Hok, Ha, Hq. subst ok.
    unfold pop_back_shutdown. run_step. rewrite Ha, Hl. cbn [rev].
    destruct (rev l ++ [p]) as [|x xs] eqn:Heq; [by destruct (rev l)|].
    rewrite <- Heq, removelast_last.
    destruct (IH fuel (mk_world (set_shutdown_plugins (rev l) (actor w1))
                                (env w1) (queue w1)))
      as [e' Hrun]; [done|cbn in Hfuel; lia|].
    exists e'. rewrite Hrun. cbn. by rewrite ?Ha, ?Hq.
Qed.


End willing.

Section deferred.

Context {W : Type} `{!plugin_iface W}.
Hypothesis deactivate_actor :
  forall p (w : world W), actor (deactivate p w) = actor w.
Hypothesis deactivate_active :
  forall p q (w : world W),
    plugin_actor q (env (deactivate p w)) = plugin_actor q (env w).

Lemma deactivated_deferred (ps : plugins_t) (w w' : world W) :
  deactivated ps w w' ->
  actor w'
  = set_deactivating_plugins
      (list_to_set (identity <$> filter (fun p => plugin_actor p (env w) = true) ps)
       ∪ deactivating_plugins (actor w))
      (actor w) /\
  forall q, plugin_actor q (env w') = plugin_actor q (env w).
Proof.
  induction 1 as [w|ps p w w' Hactive _ [IHa IHe]|ps p w w' Hactive _ [IHa IHe]].
  - split; [|done]. cbn. rewrite union_empty_l_L. by destruct w as [[] ? ?].
  - assert (Hsame : forall q,
      plugin_actor q (env (deactivate p (insert_deactivating (identity p) w)))
      = plugin_actor q (env w)) by (intros q; by rewrite deactivate_active).
    split; [|intros q; by rewrite IHe, Hsame].
    rewrite IHa, deactivate_actor. cbn.
    rewrite filter_app, fmap_app, list_to_set_app_L.
    rewrite (filter_cons_True _ p []) by done. cbn.
    unfold set_deactivating_plugins; cbn. f_equal.
    rewrite (list_filter_iff _ (fun p => plugin_actor p (env w) = true))
      by (intros q; by rewrite Hsame).
    rewrite union_empty_r_L, <- union_assoc_L. done.
  - split; [|done].
    rewrite IHa, filter_app, fmap_app, list_to_set_app_L.
    rewrite (filter_cons_False _ p []) by (by rewrite Hactive).
    cbn. by rewrite union_empty_r_L.
Qed.


End deferred.

Lemma willing_handle_env {R : Type} (c : call_t) (r : R) :
  env_only (sample_handle c r).
Proof. by intros w. Qed.

(** Plugin 12 is asked like the others. *)
Example lifecycle_run_sample :
  (init_start ;; @init_continue sample_env willing_plugins false 4 ;; on_start ;;
   shutdown_start ;; @shutdown_continue sample_env willing_plugins false 4)
    sample_new_world
  = Done tt
      (mk_world
         (set_state SHUTTED_DOWN
            (set_shutdown_request None
               (set_shutdown_plugins []
                  (set_init_request None
                     (set_init_plugins [] (sample_actor NEW [1; 2; 12]))))))
         (mk_sample_env (list_to_set [1; 2; 12])
            [c_handle_init 1; c_handle_init 2; c_handle_init 12;
             c_handle_shutdown 12; c_handle_shutdown 2; c_handle_shutdown 1])
         [(mk_address 1 1, init_reply sample_init_request);
          (mk_address 1 1, shutdown_reply sample_shutdown_request)]).
Proof. reflexivity. Qed.


(** Plugins 1 and 4 are active, 2 and 3 are not. *)
Example deactivate_plugins_deferred_sample :
  @commit_plugin_activation sample_env willing_plugins 3 false
    (mk_world (sample_actor INITIALIZING [1; 2; 3; 4]) (mk_sample_env {[1; 4]} []) [])
  = Done tt
      (mk_world
         (set_deactivating_plugins {[101; 104]} (sample_actor INITIALIZING [1; 2; 3; 4]))
         (mk_sample_env {[1; 4]} [c_deactivate 4; c_deactivate 1])
         []).
Proof. by vm_compute. Qed.

